(** * Document versioning and retrieval pipeline of llm-rag-pro

    A shallow embedding of the parts of [vectorstore_utils.py],
    [document_manager.py], [db_models.py], [performance_optimizer.py],
    [rag_utils.py], [conversation_manager.py] and [app.py] that maintain the
    versioned document registry, rebuild the combined vector index, re-rank
    retrieval candidates, cache searches, keep conversations and run the
    retrieve -> generate -> add_sources workflow.

    Conventions of the model:
    - uuids ([uuid.uuid4()]) are drawn from a counter [fresh] in the store;
    - a persisted FAISS directory is a [DiskEntry]: absent, present but not
      loadable, or a loadable index holding its chunks;
    - the embedding model, the text splitter and the chat model are black
      boxes: the chunk texts of an uploaded file and the completions of the
      chat model are inputs of the model;
    - re-ranking scores are binary64 floats ([PrimFloat]), each operation
      rounded in the order of the code;
    - [save_local] is called by [vectorstore_utils.process_documents] with
      the keyword [allow_dangerous_deserialization], which it does not
      accept, and by [app.process_documents] without it: [SaveLocalCall]
      tells the two callers apart;
    - [str.lower] and [repr] are exact on ASCII text only; the definitions
      whose results depend on them on other text take them as parameters,
      and the theorems hold for every such function;
    - the database of the conversation manager is an interface
      ([DBManager]): the model records which calls are made, not whether
      they succeed. *)

From Stdlib Require Import List String Ascii Arith Bool Lia QArith ZArith
  Sorted Permutation DecimalString OrderedTypeEx.
From Stdlib Require Floats.
Import ListNotations.
Open Scope nat_scope.
Open Scope list_scope.
Open Scope string_scope.
Open Scope list_scope.

(** ** Python string helpers used by the code *)

Module PyStr.

Definition lower_ascii (c : ascii) : ascii :=
  let n := nat_of_ascii c in
  if Nat.leb 65 n && Nat.leb n 90 then ascii_of_nat (n + 32) else c.

(** [str.lower()] on ASCII letters; other bytes are unchanged, so it differs
    from Python on text with non-ASCII capitals. Where it matters the
    definitions below take the lowering as a parameter. *)
Fixpoint lower (s : string) : string :=
  match s with
  | EmptyString => EmptyString
  | String c s' => String (lower_ascii c) (lower s')
  end.

(** The number of bytes of the UTF-8 encoded character at the head of [s]
    when it is whitespace for [str.split()] ([str.isspace]): tab to
    carriage return, U+001C to U+001F, space, U+0085, U+00A0, U+1680,
    U+2000 to U+200A, U+2028, U+2029, U+202F, U+205F and U+3000; [0] when
    it is not. *)
Definition space_len (s : string) : nat :=
  match s with
  | EmptyString => 0
  | String c s1 =>
      let n := nat_of_ascii c in
      if Nat.eqb n 32 || (Nat.leb 9 n && Nat.leb n 13) || (Nat.leb 28 n && Nat.leb n 31)
      then 1
      else
        match s1 with
        | EmptyString => 0
        | String c1 s2 =>
            let n1 := nat_of_ascii c1 in
            if Nat.eqb n 194 && (Nat.eqb n1 133 || Nat.eqb n1 160) then 2
            else
              match s2 with
              | EmptyString => 0
              | String c2 _ =>
                  let n2 := nat_of_ascii c2 in
                  if (Nat.eqb n 225 && Nat.eqb n1 154 && Nat.eqb n2 128)
                     || (Nat.eqb n 226 && Nat.eqb n1 128 &&
                         ((Nat.leb 128 n2 && Nat.leb n2 138) || Nat.eqb n2 168 ||
                          Nat.eqb n2 169 || Nat.eqb n2 175))
                     || (Nat.eqb n 226 && Nat.eqb n1 129 && Nat.eqb n2 159)
                     || (Nat.eqb n 227 && Nat.eqb n1 128 && Nat.eqb n2 128)
                  then 3 else 0
              end
        end
  end.

(** The word being read, if any, followed by the words after it. *)
Definition flush (cur : list ascii) (rest : list string) : list string :=
  match cur with
  | [] => rest
  | _ => string_of_list_ascii (rev cur) :: rest
  end.

(** [skip] counts the remaining bytes of a whitespace character. *)
Fixpoint split_aux (s : string) (skip : nat) (cur : list ascii) : list string :=
  match s with
  | EmptyString => flush cur []
  | String c s' =>
      match skip with
      | S k => split_aux s' k cur
      | 0 =>
          match space_len s with
          | 0 => split_aux s' 0 (c :: cur)
          | S k => flush cur (split_aux s' k [])
          end
      end
  end.

(** [str.split()] without arguments on UTF-8 text: runs of whitespace
    separate words, no empty words. *)
Definition split (s : string) : list string := split_aux s 0 [].

(** [len(s)]: the number of code points of a UTF-8 string, i.e. of its
    bytes that are not continuation bytes [0b10xxxxxx]. *)
Fixpoint len (s : string) : nat :=
  match s with
  | EmptyString => 0
  | String c s' =>
      let n := nat_of_ascii c in
      (if Nat.leb 128 n && Nat.ltb n 192 then 0 else 1) + len s'
  end.

(** [w in s] for strings. *)
Fixpoint contains (w s : string) : bool :=
  String.prefix w s ||
  match s with
  | EmptyString => false
  | String _ s' => contains w s'
  end.

(** [str(n)] for a non-negative [int]. *)
Definition of_nat (n : nat) : string :=
  NilZero.string_of_uint (Nat.to_uint n).

(** A lowercase hexadecimal digit. *)
Definition hex_digit (n : nat) : ascii :=
  ascii_of_nat (if Nat.ltb n 10 then 48 + n else 87 + n).

Fixpoint has_char (n : nat) (s : string) : bool :=
  match s with
  | EmptyString => false
  | String c s' => Nat.eqb (nat_of_ascii c) n || has_char n s'
  end.

(** The quote [repr] uses: a double quote when the text contains a single
    quote and no double quote, a single quote otherwise. *)
Definition repr_quote (s : string) : ascii :=
  if has_char 39 s && negb (has_char 34 s) then ascii_of_nat 34
  else ascii_of_nat 39.

(** The body of [repr(s)] with quote [q]: the backslash and the quote are
    escaped, tab, newline and carriage return become [\t], [\n], [\r], the
    other control characters and DEL become [\xNN]. Bytes of non-ASCII
    characters are copied (Python also escapes the non-printable ones among
    them, such as U+00A0). *)
Fixpoint repr_body (q : ascii) (s : string) : string :=
  let bs := ascii_of_nat 92 in
  match s with
  | EmptyString => EmptyString
  | String c s' =>
      let n := nat_of_ascii c in
      let e :=
        if Nat.eqb n 92 then String bs (String bs EmptyString)
        else if Ascii.eqb c q then String bs (String q EmptyString)
        else if Nat.eqb n 9 then String bs (String "t" EmptyString)
        else if Nat.eqb n 10 then String bs (String "n" EmptyString)
        else if Nat.eqb n 13 then String bs (String "r" EmptyString)
        else if Nat.ltb n 32 || Nat.eqb n 127 then
          String bs (String "x" (String (hex_digit (n / 16))
                                   (String (hex_digit (n mod 16)) EmptyString)))
        else String c EmptyString in
      (e ++ repr_body q s')%string
  end.

(** [repr(s)] for a [str]. *)
Definition repr (s : string) : string :=
  let q := repr_quote s in
  String q (repr_body q s ++ String q EmptyString).

End PyStr.

(** ** Registry: [DocumentMetadata], [DocumentVersionLog] and the upload path *)

Module Registry.

(** The [document_metadata] table ([db_models.DocumentMetadata]). The
    [vector_store_path] is a nullable column; paths are uuid-named, so a path
    is modelled by the number of its uuid. *)
Record DocumentMetadata := mkDoc {
  doc_id : nat;
  filename : string;
  category : string;
  version : nat;
  chunks : nat;
  is_active : bool;
  vector_store_path : option nat
}.

(** The [document_version_log] table ([db_models.DocumentVersionLog]). *)
Record DocumentVersionLog := mkLog {
  log_doc_id : nat;
  previous_version : nat;
  new_version : nat
}.

(** A chunk of an uploaded document with the metadata that
    [process_documents] attaches to it ([source_file], [category],
    [doc_id], [version]). *)
Record Chunk := mkChunk {
  page_content : string;
  source_file : string;
  chunk_category : string;
  chunk_doc_id : nat;
  chunk_version : nat
}.

(** What [os.path.exists] and [FAISS.load_local] find at a path. *)
Inductive DiskEntry :=
| Absent                        (* os.path.exists is False *)
| Unreadable                    (* exists, but load_local raises *)
| FaissIndex (cs : list Chunk). (* a saved index and its chunks *)

(** The database session, the data directory and the uuid source. *)
Record Store := mkStore {
  registry : list DocumentMetadata;
  version_logs : list DocumentVersionLog;
  fresh : nat;
  disk : nat -> DiskEntry
}.

Definition set_registry (st : Store) (r : list DocumentMetadata) : Store :=
  mkStore r (version_logs st) (fresh st) (disk st).

Definition update_disk (dk : nat -> DiskEntry) (p : nat) (e : DiskEntry)
  : nat -> DiskEntry :=
  fun q => if Nat.eqb q p then e else dk q.

Definition set_disk (st : Store) (p : nat) (e : DiskEntry) : Store :=
  mkStore (registry st) (version_logs st) (fresh st) (update_disk (disk st) p e).

(** [category or "기타"]: [None] and the empty string fall back to the
    default category. *)
Definition default_category : string := "기타".

Definition effective_category (c : option string) : string :=
  match c with
  | Some s => if String.eqb s "" then default_category else s
  | None => default_category
  end.

(** [DBManager.get_documents_by_category]: rows of the category that are
    active ([DocumentMetadata.is_active == True]). *)
Definition get_documents_by_category (st : Store) (cat : string)
  : list DocumentMetadata :=
  filter (fun d => String.eqb (category d) cat && is_active d) (registry st).

(** [DBManager.get_active_documents]. *)
Definition get_active_documents (st : Store) : list DocumentMetadata :=
  filter is_active (registry st).

(** [DBManager.add_document]: [session.add(doc)]; [session.commit()]. *)
Definition add_document (st : Store) (d : DocumentMetadata) : Store :=
  set_registry st (registry st ++ [d]).

(** [session.query(DocumentMetadata).filter(doc_id == x).first()] *)
Fixpoint find_doc (x : nat) (r : list DocumentMetadata)
  : option DocumentMetadata :=
  match r with
  | [] => None
  | d :: r' => if Nat.eqb (doc_id d) x then Some d else find_doc x r'
  end.

Definition with_active (d : DocumentMetadata) (b : bool) : DocumentMetadata :=
  mkDoc (doc_id d) (filename d) (category d) (version d) (chunks d) b
    (vector_store_path d).

(** Setting [is_active] on the row found by [.first()]. *)
Fixpoint set_active_first (x : nat) (b : bool) (r : list DocumentMetadata)
  : list DocumentMetadata :=
  match r with
  | [] => []
  | d :: r' =>
      if Nat.eqb (doc_id d) x then with_active d b :: r'
      else d :: set_active_first x b r'
  end.

(** [set_active_first] as a map, when ids are unique. *)
Definition deactivate_id (x : nat) (b : bool) (d : DocumentMetadata)
  : DocumentMetadata :=
  if Nat.eqb (doc_id d) x then with_active d b else d.

(** [session.delete(document)] on the row found by [.first()]. *)
Fixpoint remove_first (x : nat) (r : list DocumentMetadata)
  : list DocumentMetadata :=
  match r with
  | [] => []
  | d :: r' => if Nat.eqb (doc_id d) x then r' else d :: remove_first x r'
  end.

(** [DocumentManager.update_document_status]. *)
Definition update_document_status (st : Store) (x : nat) (b : bool)
  : Store * bool :=
  match find_doc x (registry st) with
  | Some _ => (set_registry st (set_active_first x b (registry st)), true)
  | None => (st, false)
  end.

(** [document_manager.py] binds the name [datetime] with
    [from datetime import datetime], so it names the class, while
    [db_models.py] binds the module with [import datetime]. The attribute
    access [datetime.datetime] succeeds on the module and raises
    [AttributeError] on the class. *)
Inductive DatetimeBinding := DatetimeModule | DatetimeClass.

Definition document_manager_datetime : DatetimeBinding := DatetimeClass.
Definition db_models_datetime : DatetimeBinding := DatetimeModule.

(** [datetime.datetime.utcnow()] under a binding: [None] when it raises. *)
Definition utcnow_attr (b : DatetimeBinding) : option unit :=
  match b with
  | DatetimeModule => Some tt
  | DatetimeClass => None
  end.

(** [DocumentManager.create_document_version_log], parameterised by the
    binding of [datetime] in its module: building the log row evaluates
    [changed_at=datetime.datetime.utcnow()]; if that raises, the [except]
    branch rolls back and returns [False]. *)
Definition create_document_version_log_with (b : DatetimeBinding)
  (st : Store) (x prev new : nat) : Store * bool :=
  match utcnow_attr b with
  | Some _ =>
      (mkStore (registry st) (version_logs st ++ [mkLog x prev new])
         (fresh st) (disk st), true)
  | None => (st, false)
  end.

Definition create_document_version_log :=
  create_document_version_log_with document_manager_datetime.

(** An uploaded file: its name and, when the loader succeeds, the chunk
    texts that [RecursiveCharacterTextSplitter] produces ([None] when
    [get_loader] or [loader.load()] raises). *)
Record UploadedFile := mkUpload {
  uf_name : string;
  uf_chunks : option (list string)
}.

(** One iteration of the duplicate scan of [process_documents]:
    [if doc.filename == filename: if doc.version > existing_version: ...] *)
Definition existing_step (fname : string) (acc : nat * option nat)
  (d : DocumentMetadata) : nat * option nat :=
  if String.eqb (filename d) fname then
    if Nat.ltb (fst acc) (version d) then (version d, Some (doc_id d))
    else acc
  else acc.

(** [existing_version], [existing_doc_id] after scanning
    [get_documents_by_category(category or "기타")]. *)
Definition existing_version_of (st : Store) (cat fname : string)
  : nat * option nat :=
  fold_left (existing_step fname) (get_documents_by_category st cat) (0, None).

(** The body of the per-file loop of [process_documents]. The accumulator is
    the store, [documents] and [file_info] (as [(doc_id, path)] pairs). *)
Definition process_file (cat : string)
  (acc : Store * list Chunk * list (nat * nat)) (f : UploadedFile)
  : Store * list Chunk * list (nat * nat) :=
  let '(st, documents, file_info) := acc in
  let '(existing_version, existing_doc_id) :=
    existing_version_of st cat (uf_name f) in
  let new_version := existing_version + 1 in
  match uf_chunks f with
  | None => acc
  | Some texts =>
      let did := fresh st in
      let path := S (fresh st) in
      let split_documents := map (fun t => mkChunk t (uf_name f) cat did new_version) texts in
      let meta := mkDoc did (uf_name f) cat new_version (List.length split_documents) true
                    (Some path) in
      let st0 := mkStore (registry st) (version_logs st) (S (S (fresh st)))
                   (disk st) in
      let st1 := add_document st0 meta in
      let st2 :=
        match existing_doc_id with
        | Some old =>
            if Nat.ltb 0 existing_version then
              let st' := fst (create_document_version_log st1 did
                                existing_version new_version) in
              fst (update_document_status st' old false)
            else st1
        | None => st1
        end in
      (st2, documents ++ split_documents, file_info ++ [(did, path)])
  end.

(** The two calls of [FAISS.save_local] on the saving loop after embedding:
    [vectorstore_utils.process_documents] passes the keyword
    [allow_dangerous_deserialization=True], which [save_local(folder_path,
    index_name="index")] does not accept, so the call raises [TypeError]
    before it writes anything; [app.process_documents] calls
    [save_local(path)], which writes the index. *)
Inductive SaveLocalCall := SaveWithKeyword | SavePath.

Definition vectorstore_utils_save : SaveLocalCall := SaveWithKeyword.
Definition app_save : SaveLocalCall := SavePath.

(** The end of a call: its return value ([file_info]) or the exception that
    escapes it. *)
Inductive Outcome :=
| Returned (file_info : list (nat * nat))
| Raised (exc : string).

(** [os.makedirs(path, exist_ok=True)]: an empty directory is not a
    loadable index. *)
Definition makedirs (st : Store) (path : nat) : Store :=
  match disk st path with
  | Absent => set_disk st path Unreadable
  | _ => st
  end.

(** The saving loop after embedding: for each entry of [file_info],
    [os.makedirs], then [save_local] of the chunks of this file when there
    are any. The loop is not inside a [try]: an exception ends the call. *)
Fixpoint save_indexes (sc : SaveLocalCall) (documents : list Chunk)
  (st : Store) (file_info : list (nat * nat)) : Store * option string :=
  match file_info with
  | [] => (st, None)
  | (did, path) :: rest =>
      let st1 := makedirs st path in
      match filter (fun c => Nat.eqb (chunk_doc_id c) did) documents with
      | [] => save_indexes sc documents st1 rest
      | docs_for_file =>
          match sc with
          | SavePath =>
              save_indexes sc documents (set_disk st1 path (FaissIndex docs_for_file)) rest
          | SaveWithKeyword => (st1, Some "TypeError")
          end
      end
  end.

(** [process_documents(uploaded_files, category, ...)] with a document
    manager in the session, saving with [sc]: the store after the call and
    how the call ends. *)
Definition process_documents_with (sc : SaveLocalCall) (st : Store)
  (files : list UploadedFile) (cat : option string) : Store * Outcome :=
  let c := effective_category cat in
  let '(st1, documents, file_info) := fold_left (process_file c) files (st, [], []) in
  match documents with
  | [] => (st1, Returned [])
  | _ =>
      let '(st2, exc) := save_indexes sc documents st1 file_info in
      match exc with
      | None => (st2, Returned file_info)
      | Some e => (st2, Raised e)
      end
  end.

(** [vectorstore_utils.process_documents]. *)
Definition process_documents : Store -> list UploadedFile -> option string ->
  Store * Outcome := process_documents_with vectorstore_utils_save.

(** [app.process_documents], the function the sidebar of [app.py] calls. *)
Definition app_process_documents : Store -> list UploadedFile -> option string ->
  Store * Outcome := process_documents_with app_save.

(** [DocumentManager.delete_document(doc_id, permanently)]. *)
Definition delete_document (st : Store) (x : nat) (permanently : bool)
  : Store * bool :=
  match find_doc x (registry st) with
  | None => (st, false)
  | Some d =>
      if permanently then
        let st1 := set_registry st (remove_first x (registry st)) in
        match vector_store_path d with
        | Some p =>
            match disk st1 p with
            | Absent => (st1, true)
            | _ => (set_disk st1 p Absent, true)
            end
        | None => (st1, true)
        end
      else (set_registry st (set_active_first x false (registry st)), true)
  end.

(** The empty registry with an empty data directory. *)
Definition empty_store : Store := mkStore [] [] 0 (fun _ => Absent).

(** One upload of a single file through [vectorstore_utils.process_documents]. *)
Definition upload (st : Store) (fname : string) (cat : option string)
  (texts : list string) : Store :=
  fst (process_documents st [mkUpload fname (Some texts)] cat).

(** One upload of a single file through [app.process_documents]. *)
Definition app_upload (st : Store) (fname : string) (cat : option string)
  (texts : list string) : Store :=
  fst (app_process_documents st [mkUpload fname (Some texts)] cat).

(** [n] uploads of the same file in sequence. *)
Fixpoint upload_times (st : Store) (fname : string) (cat : option string)
  (texts : list string) (n : nat) : Store :=
  match n with
  | 0 => st
  | S n' => upload (upload_times st fname cat texts n') fname cat texts
  end.

(** The rows of the family [(filename, category)], in insertion order. *)
Definition family (st : Store) (cat fname : string) : list DocumentMetadata :=
  filter (fun d => String.eqb (filename d) fname && String.eqb (category d) cat)
    (registry st).

(** The [is_active] flags of a family after [n] uploads: only the last
    row is active. *)
Definition active_pattern (n : nat) : list bool :=
  match n with
  | 0 => []
  | S k => repeat false k ++ [true]
  end.

(** Largest version among the active rows of the family, 0 if none. *)
Definition max_active_version (st : Store) (cat fname : string) : nat :=
  list_max (map version (filter (fun d => String.eqb (filename d) fname)
                           (get_documents_by_category st cat))).

End Registry.

(** ** Rebuilding the combined index: [load_vectorstores] *)

Module IndexStore.
Import Registry.

(** [combined_vectorstore.merge_from(doc_vectorstore)]: the chunks of the
    loaded index are added to the combined one. *)
Definition merge_into (combined : option (list Chunk)) (cs : list Chunk)
  : option (list Chunk) :=
  match combined with
  | None => Some cs
  | Some c => Some (c ++ cs)
  end.

(** The body of the loop of [load_vectorstores]. The accumulator is the
    combined index and the [st.warning] messages issued so far, a message
    being modelled by the [filename] it names. *)
Definition load_step (dk : nat -> DiskEntry)
  (acc : option (list Chunk) * list string) (d : DocumentMetadata)
  : option (list Chunk) * list string :=
  let '(combined, warnings) := acc in
  match vector_store_path d with
  | Some p =>
      match dk p with
      | Absent => acc
      | Unreadable => (combined, warnings ++ [filename d])
      | FaissIndex cs => (merge_into combined cs, warnings)
      end
  | None => acc
  end.

(** [load_vectorstores(_document_manager)] with a document manager: the
    combined index ([None] for Python [None]) and the warnings. *)
Definition load_vectorstores (st : Store) : option (list Chunk) * list string :=
  match get_active_documents st with
  | [] => (None, [])
  | documents => fold_left (load_step (disk st)) documents (None, [])
  end.

(** The chunks of a combined index, [[]] for [None]. *)
Definition chunks_of (o : option (list Chunk)) : list Chunk :=
  match o with
  | None => []
  | Some cs => cs
  end.

(** What one document contributes to the combined index, and to the
    warnings. *)
Definition loaded_chunks (dk : nat -> DiskEntry) (d : DocumentMetadata)
  : list Chunk :=
  match vector_store_path d with
  | Some p => match dk p with FaissIndex cs => cs | _ => [] end
  | None => []
  end.

Definition load_warning (dk : nat -> DiskEntry) (d : DocumentMetadata)
  : list string :=
  match vector_store_path d with
  | Some p => match dk p with Unreadable => [filename d] | _ => [] end
  | None => []
  end.

(** [FAISS.load_local] succeeds on the path of the row. *)
Definition is_loadable (dk : nat -> DiskEntry) (d : DocumentMetadata) : bool :=
  match vector_store_path d with
  | Some p => match dk p with FaissIndex _ => true | _ => false end
  | None => false
  end.

(** The path of the row exists but [FAISS.load_local] raises on it. *)
Definition is_unreadable (dk : nat -> DiskEntry) (d : DocumentMetadata) : bool :=
  match vector_store_path d with
  | Some p => match dk p with Unreadable => true | _ => false end
  | None => false
  end.

(** Each saved index of a registry row holds chunks tagged with that row's
    [doc_id], [filename], [category] and [version]. *)
Definition index_tagged (st : Store) : Prop :=
  forall d p cs ch,
    In d (registry st) -> vector_store_path d = Some p ->
    disk st p = FaissIndex cs -> In ch cs ->
    chunk_doc_id ch = doc_id d /\ source_file ch = filename d /\
    chunk_category ch = category d /\ chunk_version ch = version d.

(** The uuids of rows and paths are below the counter: fresh uuids are
    unused, and nothing exists yet at a path with a fresh uuid. *)
Definition uuids_fresh (st : Store) : Prop :=
  NoDup (map doc_id (registry st)) /\
  Forall (fun d => doc_id d < fresh st) (registry st) /\
  (forall d p, In d (registry st) -> vector_store_path d = Some p ->
               p < fresh st) /\
  (forall p, fresh st <= p -> disk st p = Absent).

End IndexStore.

(** ** Re-ranking: [PerformanceOptimizer.improved_vector_search] *)

Module Rerank.
Import Floats.PrimFloat FloatOps SpecFloat.
Local Set Warnings "-inexact-float".

(** The metadata of a LangChain [Document] as the ingest path writes it:
    [category] a [str], [version] an [int], and other keys. *)
Record Metadata := mkMeta {
  md_category : option string;
  md_version : option nat;
  md_other : list (string * string)
}.

Record Document := mkDocument {
  page_content : string;
  metadata : Metadata
}.

(** [if metadata:] -- a non-empty dict. *)
Definition metadata_truthy (m : Metadata) : bool :=
  match md_category m, md_version m, md_other m with
  | None, None, [] => false
  | _, _, _ => true
  end.

(** A filter dict with [str] values. *)
Definition Filters := list (string * string).

Fixpoint lookup (k : string) (f : Filters) : option string :=
  match f with
  | [] => None
  | (k', v) :: f' => if String.eqb k k' then Some v else lookup k f'
  end.

(** [if filters:] -- not [None] and not empty. *)
Definition filters_truthy (f : option Filters) : bool :=
  match f with
  | Some (_ :: _) => true
  | _ => false
  end.

(** [filters and "category" in filters and metadata.get("category") ==
    filters["category"]] *)
Definition category_bonus (filters : option Filters) (m : Metadata) : bool :=
  filters_truthy filters &&
  match filters with
  | Some f =>
      match lookup "category" f, md_category m with
      | Some fc, Some dc => String.eqb dc fc
      | _, _ => false
      end
  | None => false
  end.

(** [vectorstore.similarity_search(enhanced_query, k=..., filter=...)]:
    the query ([None] is Python's [None]), [k], the filter; the result is
    [None] when the call raises. *)
Definition SimilaritySearch :=
  option string -> nat -> option Filters -> option (list Document).

(** [PerformanceOptimizer.enhance_query] as it stands in the class: after
    [if not context: return query] the body ends, so a non-empty context
    yields [None]. *)
Definition enhance_query (query : string) (context : option string)
  : option string :=
  match context with
  | None => Some query
  | Some c => if String.eqb c "" then Some query else None
  end.

(** [float(n)] for a non-negative [int]: the nearest double, ties to even.
    ([float] raises [OverflowError] from [2 ^ 1024] on, where this gives
    infinity; the versions of the registry are far below.) *)
Definition float_of_nat (n : nat) : float :=
  SF2Prim (binary_normalize prec emax (Z.of_nat n) 0%Z false).

(** Insertion into a list sorted by descending score, comparing with [<]
    only, as [list.sort] does: the new element goes before the first
    element it is not smaller than, so it stays before the elements of equal
    score that came after it in the input. *)
Fixpoint insert_desc {A : Type} (x : A * float) (l : list (A * float))
  : list (A * float) :=
  match l with
  | [] => [x]
  | y :: l' => if PrimFloat.ltb (snd x) (snd y) then y :: insert_desc x l' else x :: l
  end.

(** [list.sort(key=lambda x: x[1], reverse=True)]: stable, descending. The
    scores below are never NaN, so [<] is a strict weak order on them and
    every stable descending sort gives this list. *)
Fixpoint sort_desc {A : Type} (l : list (A * float)) : list (A * float) :=
  match l with
  | [] => []
  | x :: l' => insert_desc x (sort_desc l')
  end.

(** [x] may come before [y] in a list sorted by descending score: [x] is not
    smaller than [y]. *)
Definition desc {A : Type} (x y : A * float) : Prop :=
  PrimFloat.ltb (snd x) (snd y) = false.

(** The category named by a filter dict, if any. *)
Definition filter_category (filters : option Filters) : option string :=
  match filters with
  | Some f => lookup "category" f
  | None => None
  end.

Section Lowering.

(** [str.lower]. The model takes it as a parameter: [PyStr.lower] is exact
    on ASCII text only. *)
Variable lower : string -> string.

(** [[w.lower() for w in query.split() if len(w) > 3]] *)
Definition query_words (query : string) : list string :=
  map lower (filter (fun w => Nat.ltb 3 (PyStr.len w)) (PyStr.split query)).

(** [sum(1 for word in query_words if word in content_lower)] *)
Definition keyword_matches (query content : string) : nat :=
  List.length (filter (fun w => PyStr.contains w (lower content))
                 (query_words query)).

(** The composite score of one candidate, as the loop body computes it:
    each product and sum is a binary64 operation. *)
Definition score (query : string) (filters : option Filters) (doc : Document)
  : float :=
  let m := metadata doc in
  let s0 := 1.0%float in
  let s1 :=
    if metadata_truthy m then
      let sa := if category_bonus filters m then (s0 * 1.2)%float else s0 in
      match md_version m with
      | Some v => (sa * (1.0 + float_of_nat v * 0.05))%float
      | None => sa
      end
    else s0 in
  (s1 * (1.0 + float_of_nat (keyword_matches query (page_content doc)) * 0.1))%float.

(** The number of words of the question longer than three characters that
    occur in the text, ignoring case. *)
Definition spec_matches (query content : string) : nat :=
  List.length
    (filter (fun w => Nat.ltb 3 (PyStr.len w) &&
                      PyStr.contains (lower w) (lower content))
       (PyStr.split query)).

(** [PerformanceOptimizer.improved_vector_search]. *)
Definition improved_vector_search_with (similarity_search : SimilaritySearch)
  (query : string) (context : option string) (filters : option Filters)
  (top_k : nat) : list Document :=
  let enhanced_query := enhance_query query context in
  let filter_kw := if filters_truthy filters then filters else None in
  match similarity_search enhanced_query (top_k * 2) filter_kw with
  | None => []
  | Some [] => []
  | Some results =>
      let scored_results := map (fun d => (d, score query filters d)) results in
      map fst (firstn top_k (sort_desc scored_results))
  end.

End Lowering.

(** [improved_vector_search], with the lowering of ASCII text. *)
Definition improved_vector_search : SimilaritySearch -> string -> option string ->
  option Filters -> nat -> list Document := improved_vector_search_with PyStr.lower.

(** The composite score as the amended statement gives it: in binary64,
    [1.0], times [1.2] with a category bonus, times
    [1.0 + float(version) * 0.05] when there is a version, times
    [1.0 + N * 0.1], in this order. *)
Definition composite_float (bonus : bool) (version : option nat) (n : nat) : float :=
  let s := if bonus then (1.0 * 1.2)%float else 1.0%float in
  let s := match version with
           | Some v => (s * (1.0 + float_of_nat v * 0.05))%float
           | None => s
           end in
  (s * (1.0 + float_of_nat n * 0.1))%float.

Local Open Scope Q_scope.

Definition Q_of_nat (n : nat) : Q := inject_Z (Z.of_nat n).

(** The composite score as the specification states it, in exact
    arithmetic: 1, times 1.2 when a category filter is given and the
    candidate's category matches, times [1 + 0.05 * version], times
    [1 + 0.1 * N]. *)
Definition composite_spec (filter_cat cand_cat : option string)
  (v n : nat) : Q :=
  1 * (match filter_cat, cand_cat with
       | Some fc, Some dc => if String.eqb dc fc then 6 # 5 else 1
       | _, _ => 1
       end)
    * (1 + (5 # 100) * Q_of_nat v) * (1 + (1 # 10) * Q_of_nat n).

Local Close Scope Q_scope.

(** A vector store whose search returns one document holding the query it
    received, and raises on a [None] query. *)
Definition echo_search : SimilaritySearch :=
  fun q _ _ =>
    match q with
    | Some s => Some [mkDocument s (mkMeta None None [])]
    | None => None
    end.

End Rerank.

(** ** [DocumentSearchOptimizer]: query cache and rolling window *)

Module SearchCache.
Import Rerank.

Record Optimizer := mkOptimizer {
  recent_queries : list string;
  query_cache : list (string * list Document);  (* dict, insertion order *)
  searches : nat                                (* calls of the vector search *)
}.

Definition init : Optimizer := mkOptimizer [] [] 0.

Section Keys.

(** [repr] of a [str], as [str(dict)] shows keys and values; [PyStr.repr]
    is exact on ASCII text. *)
Variable repr : string -> string.

(** [str.lower], as in [improved_vector_search]. *)
Variable lower : string -> string.

(** [str(filters)] for [None] or a dict of [str] values. *)
Definition str_filters (f : option Filters) : string :=
  match f with
  | None => "None"
  | Some kvs =>
      "{" ++ String.concat ", "
               (map (fun kv => repr (fst kv) ++ ": " ++ repr (snd kv)) kvs)
      ++ "}"
  end%string.

(** [f"{query}_{str(filters)}_{k}"] *)
Definition cache_key (query : string) (filters : option Filters) (k : nat)
  : string :=
  (query ++ "_" ++ str_filters filters ++ "_" ++ PyStr.of_nat k)%string.

Fixpoint cache_lookup (key : string) (c : list (string * list Document))
  : option (list Document) :=
  match c with
  | [] => None
  | (k, v) :: c' => if String.eqb key k then Some v else cache_lookup key c'
  end.

(** [DocumentSearchOptimizer.search(query, filters, k)]. A key is only
    inserted when absent, so the dict insertion appends. *)
Definition search (similarity_search : SimilaritySearch) (o : Optimizer)
  (query : string) (filters : option Filters) (k : nat)
  : Optimizer * list Document :=
  let key := cache_key query filters k in
  match cache_lookup key (query_cache o) with
  | Some r => (o, r)
  | None =>
      let rq := recent_queries o ++ [query] in
      let rq' := if Nat.ltb 5 (List.length rq) then tl rq else rq in
      let context := String.concat " " rq' in
      let results :=
        improved_vector_search_with lower similarity_search query (Some context)
          filters k in
      let c := query_cache o ++ [(key, results)] in
      let c' := if Nat.ltb 100 (List.length c) then tl c else c in
      (mkOptimizer rq' c' (S (searches o)), results)
  end.

(** A sequence of calls with the same filters and [k]. *)
Fixpoint search_all (similarity_search : SimilaritySearch) (o : Optimizer)
  (qs : list string) (filters : option Filters) (k : nat) : Optimizer :=
  match qs with
  | [] => o
  | q :: qs' =>
      search_all similarity_search (fst (search similarity_search o q filters k))
        qs' filters k
  end.

End Keys.

(** The queries ["q0"], ..., ["q<n-1>"]. *)
Definition numbered_queries (n : nat) : list string :=
  map (fun i => ("q" ++ PyStr.of_nat i)%string) (seq 0 n).

End SearchCache.

(** ** The RAG workflow of [rag_utils.py] and [generate_response] *)

Module Pipeline.

(** A document the retriever returns: its text and the metadata keys
    [source_file], [page] and [category] when present. *)
Record RetrievedDoc := mkRetrieved {
  rd_content : string;
  rd_source_file : option string;
  rd_page : option string;
  rd_category : option string
}.

(** An entry of [sources]; a [page] of ["N/A"] is [None]. *)
Record Source := mkSource {
  src_source : string;
  src_page : option string;
  src_category : string
}.

Record AgentState := mkState {
  question : string;
  context : list string;
  answer : string;
  sources : list Source;
  need_more_info : bool
}.

(** What the chat model is asked: the RAG prompt (question and rendered
    context) or the prompt of the plain path (question only). *)
Inductive Prompt :=
| RagPrompt (q ctx : string)
| PlainPrompt (q : string).

(** The result of [chain.invoke]: a completion or a raised exception. *)
Inductive Outcome :=
| Completed (text : string)
| Failed (err : string).

(** The chat model: the outcome of its [n]-th call on a prompt. *)
Definition ChatModel := nat -> Prompt -> Outcome.

(** A computation that may raise. *)
Inductive Exc (A : Type) :=
| Ok (a : A)
| Raised (err : string).
Arguments Ok {A} a.
Arguments Raised {A} err.

(** The order in which [similarity_search] returns documents: by
    descending similarity, the earlier of two equally similar documents
    first. *)
Fixpoint similarity_insert {A : Type} (x : A * Q) (l : list (A * Q))
  : list (A * Q) :=
  match l with
  | [] => [x]
  | y :: l' => if Qle_bool (snd y) (snd x) then x :: l else y :: similarity_insert x l'
  end.

Fixpoint similarity_sort {A : Type} (l : list (A * Q)) : list (A * Q) :=
  match l with
  | [] => []
  | x :: l' => similarity_insert x (similarity_sort l')
  end.

(** [x] comes before [y] in that order. *)
Definition similarity_before {A : Type} (x y : A * Q) : Prop := (snd y <= snd x)%Q.

Section Workflow.

(** The similarity of a question to a stored document, which orders the
    results of [similarity_search]. *)
Variable similarity : string -> RetrievedDoc -> Q.

(** [vectorstore.as_retriever(search_type="similarity",
    search_kwargs={"k": k}).get_relevant_documents(q)] *)
Definition similarity_top (k : nat) (q : string) (docs : list RetrievedDoc)
  : list RetrievedDoc :=
  map fst (firstn k (similarity_sort (map (fun d => (d, similarity q d)) docs))).

Definition to_source (d : RetrievedDoc) : Source :=
  mkSource (match rd_source_file d with Some s => s | None => "Unknown" end)
    (rd_page d)
    (match rd_category d with Some c => c | None => "기타" end).

(** [retrieve_documents]: [vectorstore] is the session's vector store
    ([None] when absent), given by its documents. *)
Definition retrieve_documents (vectorstore : option (list RetrievedDoc))
  (st : AgentState) : AgentState :=
  match vectorstore with
  | None => mkState (question st) [] (answer st) [] (need_more_info st)
  | Some docs =>
      let ds := similarity_top 5 (question st) docs in
      mkState (question st) (map rd_content ds) (answer st)
        (map to_source ds) (need_more_info st)
  end.

Definition nl : string := String (ascii_of_nat 10) "".

Definition no_context_text : string := "관련 문서가 없습니다.".

Definition not_found_marker : string := "제공된 문서에서 관련 정보를 찾을 수 없습니다".

(** [generate_answer], calling the chat model once as its [n]-th call. *)
Definition generate_answer (llm : ChatModel) (n : nat) (st : AgentState)
  : Exc AgentState :=
  let context_text :=
    match context st with
    | [] => no_context_text
    | cs => String.concat (nl ++ nl)%string cs
    end in
  match llm n (RagPrompt (question st) context_text) with
  | Completed a =>
      Ok (mkState (question st) (context st) a (sources st)
            (PyStr.contains not_found_marker a))
  | Failed e => Raised e
  end.

(** The note appended when no document backs the answer. *)
Definition no_docs_note : string :=
  (nl ++ nl ++ "*참고: 보다 구체적이고 정확한 답변을 위해서는 관련 문서가 필요합니다.*")%string.

Definition sources_header : string := (nl ++ nl ++ "**참고 문서:**" ++ nl)%string.

Definition source_line (s : Source) : string :=
  ("- " ++ src_source s
   ++ match src_page s with Some p => " (페이지: " ++ p ++ ")" | None => "" end
   ++ (if String.eqb (src_category s) "" then ""
       else " [카테고리: " ++ src_category s ++ "]")
   ++ nl)%string.

(** [add_source_information]. *)
Definition add_source_information (st : AgentState) : AgentState :=
  match sources st with
  | [] =>
      mkState (question st) (context st) (answer st ++ no_docs_note)%string
        (sources st) (need_more_info st)
  | srcs =>
      mkState (question st) (context st)
        (answer st ++ sources_header ++ String.concat "" (map source_line srcs))%string
        (sources st) (need_more_info st)
  end.

(** The compiled graph: retrieve -> generate -> add_sources -> END. *)
Definition run_workflow (vectorstore : option (list RetrievedDoc))
  (llm : ChatModel) (st : AgentState) : Exc AgentState :=
  match generate_answer llm 0 (retrieve_documents vectorstore st) with
  | Ok st2 => Ok (add_source_information st2)
  | Raised e => Raised e
  end.

Definition initial_state (prompt : string) : AgentState :=
  mkState prompt [] "" [] false.

(** What [generate_response] produces: the returned text and the
    [st.error] messages shown. The chat model is only ever asked for its
    call number 0: a retry would be a call number 1. *)
Record Reply := mkReply {
  reply : string;
  errors_shown : list string
}.

Definition apology_rag : string :=
  "죄송합니다. 질문 처리 중 오류가 발생했습니다. 나중에 다시 시도해주세요.".

Definition apology_plain : string :=
  "죄송합니다. 응답 생성 중 오류가 발생했습니다. 나중에 다시 시도해주세요.".

(** [generate_response(prompt, ...)]; [has_workflow] says whether
    ['rag_workflow' in st.session_state]. *)
Definition generate_response (vectorstore : option (list RetrievedDoc))
  (has_workflow : bool) (llm : ChatModel) (prompt : string) : Reply :=
  let has_vectorstore := match vectorstore with Some _ => true | None => false end in
  if has_vectorstore && has_workflow then
    match run_workflow vectorstore llm (initial_state prompt) with
    | Ok result => mkReply (answer result) []
    | Raised e => mkReply apology_rag [("RAG 응답 생성 중 오류: " ++ e)%string]
    end
  else
    match llm 0 (PlainPrompt prompt) with
    | Completed response =>
        mkReply (if has_vectorstore then response else (response ++ no_docs_note)%string)
          []
    | Failed e => mkReply apology_plain [("LLM 응답 생성 중 오류: " ++ e)%string]
    end.

End Workflow.

End Pipeline.

(** ** Python dicts as association lists in insertion order *)

Module PyDict.

Section Dict.
Context {V : Type}.

(** [d.get(k)] *)
Fixpoint get (k : string) (d : list (string * V)) : option V :=
  match d with
  | [] => None
  | (k', v) :: d' => if String.eqb k k' then Some v else get k d'
  end.

(** [d[k] = v]: an existing key keeps its position, a new key goes last. *)
Fixpoint set (k : string) (v : V) (d : list (string * V)) : list (string * V) :=
  match d with
  | [] => [(k, v)]
  | (k', v') :: d' =>
      if String.eqb k k' then (k', v) :: d' else (k', v') :: set k v d'
  end.

(** [del d[k]] for a key that is present. *)
Fixpoint del (k : string) (d : list (string * V)) : list (string * V) :=
  match d with
  | [] => []
  | (k', v') :: d' => if String.eqb k k' then d' else (k', v') :: del k d'
  end.

End Dict.

(** [if k not in d: d[k] = []] followed by [d[k].append(v)]. *)
Definition append_to {V : Type} (k : string) (v : V)
  (d : list (string * list V)) : list (string * list V) :=
  match get k d with
  | None => set k [v] d
  | Some l => set k (l ++ [v]) d
  end.

(** The entry of a key after appending the values [l] to it one by one
    with [append_to], starting from the entry [o]. *)
Definition extend {V : Type} (o : option (list V)) (l : list V)
  : option (list V) :=
  match o, l with
  | None, [] => None
  | None, _ => Some l
  | Some a, _ => Some (a ++ l)
  end.

End PyDict.

(** ** More of [document_manager.py] and [vectorstore_utils.py] *)

Module Catalog.
Import Registry.

(** Insertion into a sorted list of distinct strings. *)
Fixpoint insert_category (c : string) (l : list string) : list string :=
  match l with
  | [] => [c]
  | c' :: l' =>
      match String.compare c c' with
      | Lt => c :: l
      | Eq => l
      | Gt => c' :: insert_category c l'
      end
  end.

(** [DocumentManager.get_available_categories]:
    [sorted(list(set(doc.category for doc in documents)))] over
    [get_active_documents()]. Python orders [str] by code points, which on
    UTF-8 text is the byte order that [String.compare] uses. *)
Definition get_available_categories (st : Store) : list string :=
  fold_right insert_category [] (map category (get_active_documents st)).

(** [str.split(sep)] with a one-character separator: empty fields kept. *)
Fixpoint split_sep (c : ascii) (s : string) : list string :=
  match s with
  | EmptyString => [EmptyString]
  | String a s' =>
      let rest := split_sep c s' in
      if Ascii.eqb a c then EmptyString :: rest
      else match rest with
           | w :: ws => String a w :: ws
           | [] => [String a EmptyString]
           end
  end.

(** [uploaded_file.name.split('.')[-1].lower()] *)
Definition file_type_of (name : string) : string :=
  PyStr.lower (last (split_sep "." name) "").

Inductive Loader :=
| PyPDFLoader
| Docx2txtLoader
| CSVLoader
| UnstructuredPowerPointLoader.

(** [get_loader(file_path, file_type)]: [None] when it raises
    [ValueError]. *)
Definition get_loader (file_type : string) : option Loader :=
  if String.eqb file_type "pdf" then Some PyPDFLoader
  else if String.eqb file_type "docx" then Some Docx2txtLoader
  else if String.eqb file_type "csv" then Some CSVLoader
  else if String.eqb file_type "pptx" then Some UnstructuredPowerPointLoader
  else None.

(** A row of [category_permissions] ([db_models.CategoryPermission]). *)
Record CategoryPermission := mkPerm {
  perm_username : string;
  perm_category : string;
  can_view : bool;
  can_upload : bool
}.

(** The tables the permission methods touch, and whether the session is
    waiting for a [rollback()]: after a failed [commit()] SQLAlchemy
    refuses every further statement of the session with
    [PendingRollbackError] until [rollback()] is called. *)
Record PermDB := mkPermDB {
  users : list string;                      (* users.username *)
  permissions : list CategoryPermission;
  pending_rollback : bool
}.

(** [.filter(username == u, category == c).first()] *)
Fixpoint find_permission (u c : string) (ps : list CategoryPermission)
  : option CategoryPermission :=
  match ps with
  | [] => None
  | p :: ps' =>
      if String.eqb (perm_username p) u && String.eqb (perm_category p) c
      then Some p else find_permission u c ps'
  end.

(** [DocumentManager.check_document_permission]; [db] is [None] when the
    manager has no [db_manager]. A query on a session waiting for a
    rollback raises, and the handler returns [False]. *)
Definition check_document_permission (db : option PermDB)
  (username category permission_type : string) : bool :=
  match db with
  | None => true
  | Some s =>
      if pending_rollback s then false
      else
        match find_permission username category (permissions s) with
        | None => false
        | Some p =>
            if String.eqb permission_type "view" then can_view p
            else if String.eqb permission_type "upload" then can_upload p
            else false
        end
  end.

(** [DocumentManager.add_category_permission]. [username] and
    [assigned_by] (set to [username]) are foreign keys to [users]: the
    [commit()] of a row naming an unknown user fails, and the handler
    returns [False] without calling [rollback()]. *)
Definition add_category_permission (db : option PermDB)
  (username category : string) (can_view can_upload : bool)
  : option PermDB * bool :=
  match db with
  | None => (None, false)
  | Some s =>
      if pending_rollback s then (db, false)
      else if existsb (String.eqb username) (users s) then
        (Some (mkPermDB (users s)
                 (permissions s ++ [mkPerm username category can_view can_upload])
                 false), true)
      else (Some (mkPermDB (users s) (permissions s) true), false)
  end.

(** The strict order of [sorted()] on strings. *)
Definition str_lt (a b : string) : Prop := String.compare a b = Lt.

End Catalog.

(** ** More of [performance_optimizer.py] *)

Module Optimizer.
Import Rerank.

(** [metadata.get("doc_id", "unknown")] *)
Definition index_doc_id (d : Document) : string :=
  match lookup "doc_id" (md_other (metadata d)) with
  | Some s => s
  | None => "unknown"
  end.

(** [metadata.get("category", "기타")] *)
Definition index_category (d : Document) : string :=
  match md_category (metadata d) with
  | Some c => c
  | None => "기타"
  end.

(** [metadata.get("source_file", "unknown")] *)
Definition index_filename (d : Document) : string :=
  match lookup "source_file" (md_other (metadata d)) with
  | Some s => s
  | None => "unknown"
  end.

(** The distinct elements of a list, in order of first occurrence. *)
Fixpoint dedup (l : list string) : list string :=
  match l with
  | [] => []
  | w :: l' => w :: filter (fun x => negb (String.eqb x w)) (dedup l')
  end.

Record DocumentIndex := mkIndex {
  by_id : list (string * Document);
  by_category : list (string * list Document);
  by_filename : list (string * list Document);
  by_content : list (string * list string)
}.

Section Lowering.

(** [str.lower]; [PyStr.lower] is exact on ASCII text. *)
Variable lower : string -> string.

(** [set(w for w in content.split() if len(w) > 4)] with
    [content = doc.page_content.lower()]; the iteration order of a Python
    set is not specified, so only the lookups of [by_content] below are
    meaningful, not the order of its keys. *)
Definition index_words (d : Document) : list string :=
  dedup (filter (fun w => Nat.ltb 4 (PyStr.len w))
           (PyStr.split (lower (page_content d)))).

(** The loop body of [create_document_index]. *)
Definition index_step (idx : DocumentIndex) (doc : Document) : DocumentIndex :=
  let doc_id := index_doc_id doc in
  mkIndex (PyDict.set doc_id doc (by_id idx))
    (PyDict.append_to (index_category doc) doc (by_category idx))
    (PyDict.append_to (index_filename doc) doc (by_filename idx))
    (fold_left (fun m w => PyDict.append_to w doc_id m) (index_words doc)
       (by_content idx)).

(** [PerformanceOptimizer.create_document_index(documents)]. *)
Definition create_document_index_with (documents : list Document)
  : DocumentIndex :=
  fold_left index_step documents (mkIndex [] [] [] []).

End Lowering.

(** [create_document_index] with the lowering of ASCII text. *)
Definition create_document_index : list Document -> DocumentIndex :=
  create_document_index_with PyStr.lower.

(** [range(0, stop, step)]: [ValueError] for a zero step, empty for a
    negative step (as [stop >= 0]). *)
Fixpoint range_from (fuel i step stop : nat) : list nat :=
  match fuel with
  | 0 => []
  | S f => if Nat.ltb i stop then i :: range_from f (i + step) step stop else []
  end.

Definition py_range0 (stop : nat) (step : Z) : Pipeline.Exc (list nat) :=
  if Z.eqb step 0 then Pipeline.Raised "ValueError: range() arg 3 must not be zero"
  else if Z.ltb 0 step then Pipeline.Ok (range_from stop 0 (Z.to_nat step) stop)
  else Pipeline.Ok [].

(** [documents[i:j]] for [0 <= i]. *)
Definition slice {A : Type} (l : list A) (i j : nat) : list A :=
  firstn (j - i) (skipn i l).

(** [PerformanceOptimizer.parallel_document_processing(documents,
    process_func, batch_size)]: the batches are
    [documents[i:i+batch_size]] for [i] in [range(0, len(documents),
    batch_size)]; each batch is mapped in a thread pool and
    [asyncio.gather] returns its results in the order of the batch.
    [process_func] is a function of the document. *)
Definition parallel_document_processing {A B : Type} (documents : list A)
  (process_func : A -> B) (batch_size : Z) : Pipeline.Exc (list B) :=
  match py_range0 (List.length documents) batch_size with
  | Pipeline.Raised e => Pipeline.Raised e
  | Pipeline.Ok starts =>
      let batches :=
        map (fun i => slice documents i (i + Z.to_nat batch_size)) starts in
      Pipeline.Ok (fold_left (fun results batch => results ++ map process_func batch)
                     batches [])
  end.

(** [str.startswith] and [str.endswith]. *)
Definition startswith (s pre : string) : bool := String.prefix pre s.

Definition endswith (s suf : string) : bool :=
  let n := String.length s in
  let m := String.length suf in
  Nat.leb m n && String.eqb (String.substring (n - m) m s) suf.

Definition cache_entry (key : string) : bool :=
  startswith key "_cache_" || endswith key "_cache".

(** [PerformanceOptimizer.clear_cache()] on [st.session_state]. *)
Definition clear_cache {V : Type} (session : list (string * V))
  : list (string * V) :=
  let s1 := fold_left (fun s key => if cache_entry key then PyDict.del key s else s)
              (map fst session) session in
  match PyDict.get "large_data" s1 with
  | Some _ => PyDict.del "large_data" s1
  | None => s1
  end.

End Optimizer.

(** ** [ConversationManager] and [chat_interface] of [conversation_manager.py] *)

Module Conversations.

Record Message := mkMessage {
  role : string;
  content : string;
  timestamp : string
}.

(** An entry of [st.session_state.conversations]. *)
Record ConvData := mkConv {
  messages : list Message;
  title : string
}.

(** The calls the manager makes on its [db_manager], over a database state
    [D]. Each write gives the state after the call; the manager catches
    and prints any exception of a write, so a failed write is the state
    the failure leaves (for instance unchanged, or with the session in a
    failed transaction). A read returns [None] when it raises. *)
Record DBManager (D : Type) := mkDBManager {
  (** [add_conversation] of [conversation_id], [username], [title] and
      [created_at] *)
  db_add_conversation : D -> nat -> string -> string -> string -> D;
  (** [add_message] of [message_id], [conversation_id] and the message *)
  db_add_message : D -> nat -> nat -> Message -> D;
  (** [get_conversation_messages(conversation_id)], as the manager formats
      its rows *)
  db_get_conversation_messages : D -> nat -> option (list Message)
}.

Arguments db_add_conversation {D} _ _ _ _ _ _.
Arguments db_add_message {D} _ _ _ _ _.
Arguments db_get_conversation_messages {D} _ _ _.

(** The session state of the manager and its database. Conversation and
    message ids are uuids, drawn from the counter [next_uuid]. [db] is
    [None] when the manager has no [db_manager]. *)
Record ConvState (D : Type) := mkConvState {
  conversations : list (nat * ConvData);
  db : option D;
  next_uuid : nat
}.

Arguments mkConvState {D} _ _ _.
Arguments conversations {D} _.
Arguments db {D} _.
Arguments next_uuid {D} _.

Fixpoint conv_get (id : nat) (cs : list (nat * ConvData)) : option ConvData :=
  match cs with
  | [] => None
  | (id', c) :: cs' => if Nat.eqb id id' then Some c else conv_get id cs'
  end.

Fixpoint conv_set (id : nat) (c : ConvData) (cs : list (nat * ConvData))
  : list (nat * ConvData) :=
  match cs with
  | [] => [(id, c)]
  | (id', c') :: cs' =>
      if Nat.eqb id id' then (id', c) :: cs' else (id', c') :: conv_set id c cs'
  end.

Section Manager.

Context {D : Type}.
Variable dbm : DBManager D.

(** [title or f"새 대화 {current_time}"] *)
Definition conversation_title (title : option string) (now : string) : string :=
  match title with
  | Some t => if String.eqb t "" then ("새 대화 " ++ now)%string else t
  | None => ("새 대화 " ++ now)%string
  end.

(** [ConversationManager.create_conversation(username, title)]; [now] is
    the formatted current time. *)
Definition create_conversation (s : ConvState D) (username : string)
  (title : option string) (now : string) : ConvState D * nat :=
  let conversation_id := next_uuid s in
  let t := conversation_title title now in
  let db' := option_map (fun d => db_add_conversation dbm d conversation_id
                                    username t now) (db s) in
  (mkConvState (conv_set conversation_id (mkConv [] t) (conversations s))
     db' (S (next_uuid s)), conversation_id).

(** [ConversationManager.add_message(conversation_id, role, content)]:
    nothing happens, in the database or the session, unless the id is a
    key of [st.session_state.conversations]. *)
Definition add_message (s : ConvState D) (conversation_id : nat)
  (role content now : string) : ConvState D * bool :=
  match conv_get conversation_id (conversations s) with
  | None => (s, false)
  | Some c =>
      let message_id := next_uuid s in
      let m := mkMessage role content now in
      (mkConvState
         (conv_set conversation_id (mkConv (messages c ++ [m]) (title c))
            (conversations s))
         (option_map (fun d => db_add_message dbm d message_id conversation_id m)
            (db s))
         (S (next_uuid s)), true)
  end.

(** [st.session_state.conversations.get(conversation_id, {}).get("messages", [])] *)
Definition session_messages (s : ConvState D) (conversation_id : nat)
  : list Message :=
  match conv_get conversation_id (conversations s) with
  | Some c => messages c
  | None => []
  end.

(** [ConversationManager.get_conversation_messages]: the database's
    messages, or the session's when there is no database or the read
    raises. *)
Definition get_conversation_messages (s : ConvState D) (conversation_id : nat)
  : list Message :=
  match db s with
  | Some d =>
      match db_get_conversation_messages dbm d conversation_id with
      | Some l => l
      | None => session_messages s conversation_id
      end
  | None => session_messages s conversation_id
  end.

(** The database writes of [add_message] for the messages [ms], with
    message ids drawn from [first] on. *)
Definition message_writes (id first : nat) (ms : list Message) (d : D) : D :=
  fold_left (fun d p => db_add_message dbm d (fst p) id (snd p))
    (combine (seq first (List.length ms)) ms) d.


End Manager.

End Conversations.

(** * Properties *)

(** ** Registry *)

Module RegistryFacts.
Import Registry.

Lemma existing_step_filter fname l acc :
  fold_left (existing_step fname) l acc =
  fold_left (existing_step fname)
    (filter (fun d => String.eqb (filename d) fname) l) acc.
Proof.
  revert acc; induction l as [|d l IH]; intro acc; [reflexivity|].
  simpl. destruct (String.eqb (filename d) fname) eqn:E; simpl.
  - apply IH.
  - unfold existing_step at 2. rewrite E. apply IH.
Qed.

Lemma existing_fold_fst fname l a o :
  fst (fold_left (existing_step fname) l (a, o)) =
  Nat.max a (list_max (map version
    (filter (fun d => String.eqb (filename d) fname) l))).
Proof.
  revert a o; induction l as [|d l IH]; intros a o; simpl; [lia|].
  unfold existing_step at 2.
  destruct (String.eqb (filename d) fname) eqn:E; simpl.
  - destruct (Nat.ltb a (version d)) eqn:L.
    + rewrite IH. apply Nat.ltb_lt in L. lia.
    + rewrite IH. apply Nat.ltb_ge in L. lia.
  - apply IH.
Qed.

Lemma existing_fold_snd fname l a o old :
  snd (fold_left (existing_step fname) l (a, o)) = Some old ->
  o = Some old \/ In old (map doc_id l).
Proof.
  revert a o; induction l as [|d l IH]; intros a o H; simpl in *; [auto|].
  unfold existing_step at 2 in H. simpl fst in H.
  destruct (String.eqb (filename d) fname);
    [destruct (Nat.ltb a (version d))|].
  - destruct (IH _ _ H) as [E|E]; [inversion E; auto|auto].
  - destruct (IH _ _ H) as [E|E]; auto.
  - destruct (IH _ _ H) as [E|E]; auto.
Qed.

Lemma set_active_first_absent x b r :
  find_doc x r = None -> set_active_first x b r = r.
Proof.
  induction r as [|d r IH]; simpl; [auto|].
  destruct (Nat.eqb (doc_id d) x); [discriminate|].
  intro H; rewrite IH; auto.
Qed.

Lemma update_document_status_registry st x b :
  registry (fst (update_document_status st x b)) =
  set_active_first x b (registry st).
Proof.
  unfold update_document_status.
  destruct (find_doc x (registry st)) eqn:E; simpl; [reflexivity|].
  symmetry; apply set_active_first_absent; auto.
Qed.

Lemma create_log_registry st x p n :
  registry (fst (create_document_version_log st x p n)) = registry st /\
  fresh (fst (create_document_version_log st x p n)) = fresh st /\
  version_logs (fst (create_document_version_log st x p n)) = version_logs st.
Proof. repeat split. Qed.

Lemma makedirs_fields st p :
  registry (makedirs st p) = registry st /\
  fresh (makedirs st p) = fresh st /\
  version_logs (makedirs st p) = version_logs st.
Proof. unfold makedirs; destruct (disk st p); simpl; auto. Qed.

Lemma save_indexes_fields sc docs infos st :
  registry (fst (save_indexes sc docs st infos)) = registry st /\
  fresh (fst (save_indexes sc docs st infos)) = fresh st /\
  version_logs (fst (save_indexes sc docs st infos)) = version_logs st.
Proof.
  revert st; induction infos as [|[did p] infos IH]; intro st; simpl; [auto|].
  destruct (makedirs_fields st p) as (A & B & C).
  destruct (filter _ docs) as [|c l].
  - destruct (IH (makedirs st p)) as (A' & B' & C'); rewrite A', B', C'; auto.
  - destruct sc; simpl; [auto|].
    destruct (IH (set_disk (makedirs st p) p (FaissIndex (c :: l)))) as (A' & B' & C').
    rewrite A', B', C'; simpl; auto.
Qed.

(** The registry, uuid counter and version log after [process_documents_with]
    do not depend on how the call ends. *)
Lemma process_documents_with_fields sc st files cat :
  let '(st1, _, _) := fold_left (process_file (effective_category cat)) files (st, [], []) in
  registry (fst (process_documents_with sc st files cat)) = registry st1 /\
  fresh (fst (process_documents_with sc st files cat)) = fresh st1 /\
  version_logs (fst (process_documents_with sc st files cat)) = version_logs st1.
Proof.
  unfold process_documents_with.
  destruct (fold_left _ files _) as [[st1 docs] info].
  destruct docs as [|c l]; [simpl; auto|].
  destruct (save_indexes_fields sc (c :: l) info st1) as (A & B & C).
  destruct (save_indexes sc (c :: l) st1 info) as [st2 [e|]]; simpl in *; auto.
Qed.

(** The effect of one upload on the registry, the uuid counter and the
    version log, whichever [save_local] call the caller makes. *)
Lemma upload_with_effect sc st fname cat texts ev eo :
  existing_version_of st (effective_category cat) fname = (ev, eo) ->
  let meta := mkDoc (fresh st) fname (effective_category cat) (ev + 1)
                (List.length texts) true (Some (S (fresh st))) in
  let st' := fst (process_documents_with sc st [mkUpload fname (Some texts)] cat) in
  registry st' =
    match eo with
    | Some old =>
        if Nat.ltb 0 ev then set_active_first old false (registry st ++ [meta])
        else registry st ++ [meta]
    | None => registry st ++ [meta]
    end /\
  fresh st' = S (S (fresh st)) /\
  version_logs st' = version_logs st.
Proof.
  intros E meta st'.
  pose proof (process_documents_with_fields sc st [mkUpload fname (Some texts)] cat) as HF.
  subst st'. simpl fold_left in HF. rewrite E in HF.
  destruct HF as (A & B & C); rewrite A, B, C.
  subst meta. destruct eo as [old|]; [destruct (Nat.ltb 0 ev)|];
    simpl; rewrite ?length_map; auto.
  unfold update_document_status.
  destruct (find_doc old _) eqn:F; simpl; rewrite ?length_map; auto.
  rewrite set_active_first_absent; auto.
Qed.

Lemma upload_effect st fname cat texts ev eo :
  existing_version_of st (effective_category cat) fname = (ev, eo) ->
  let meta := mkDoc (fresh st) fname (effective_category cat) (ev + 1)
                (List.length texts) true (Some (S (fresh st))) in
  registry (upload st fname cat texts) =
    match eo with
    | Some old =>
        if Nat.ltb 0 ev then set_active_first old false (registry st ++ [meta])
        else registry st ++ [meta]
    | None => registry st ++ [meta]
    end /\
  fresh (upload st fname cat texts) = S (S (fresh st)) /\
  version_logs (upload st fname cat texts) = version_logs st.
Proof. exact (upload_with_effect vectorstore_utils_save st fname cat texts ev eo). Qed.

Lemma app_upload_effect st fname cat texts ev eo :
  existing_version_of st (effective_category cat) fname = (ev, eo) ->
  let meta := mkDoc (fresh st) fname (effective_category cat) (ev + 1)
                (List.length texts) true (Some (S (fresh st))) in
  registry (app_upload st fname cat texts) =
    match eo with
    | Some old =>
        if Nat.ltb 0 ev then set_active_first old false (registry st ++ [meta])
        else registry st ++ [meta]
    | None => registry st ++ [meta]
    end /\
  fresh (app_upload st fname cat texts) = S (S (fresh st)) /\
  version_logs (app_upload st fname cat texts) = version_logs st.
Proof. exact (upload_with_effect app_save st fname cat texts ev eo). Qed.

Lemma filter_filter_swap {A} (p q r s : A -> bool) l :
  (forall x, q x && p x = s x && r x) ->
  filter p (filter q l) = filter r (filter s l).
Proof.
  intro H; induction l as [|a l IH]; simpl; [reflexivity|].
  specialize (H a).
  destruct (q a), (s a); simpl in *;
    [destruct (p a), (r a); simpl in *; try discriminate; rewrite IH; auto
    |destruct (p a); simpl in *; try discriminate; rewrite IH; auto
    |destruct (r a); simpl in *; try discriminate; rewrite IH; auto
    |exact IH].
Qed.

Lemma filter_map_swap {A} (p : A -> bool) (g : A -> A) l :
  (forall x, p (g x) = p x) -> filter p (map g l) = map g (filter p l).
Proof.
  intro H; induction l as [|a l IH]; simpl; [reflexivity|].
  rewrite H; destruct (p a); simpl; rewrite IH; reflexivity.
Qed.

Lemma NoDup_map_filter {A B} (f : A -> B) (p : A -> bool) l :
  NoDup (map f l) -> NoDup (map f (filter p l)).
Proof.
  induction l as [|a l IH]; simpl; intro H; [constructor|].
  inversion H as [|? ? Hn Hd]; subst.
  destruct (p a); simpl; [constructor|]; auto.
  intro Hin; apply Hn.
  apply in_map_iff in Hin as (y & Hy & Hy').
  apply filter_In in Hy' as [Hy' _].
  apply in_map_iff; eauto.
Qed.

Lemma filter_repeat_false {A} (f : A -> bool) l n :
  map f l = repeat false n -> filter f l = [].
Proof.
  revert n; induction l as [|a l IH]; intros n H; simpl; [reflexivity|].
  destruct n as [|n]; simpl in H; [discriminate|].
  injection H as Ha Hl. rewrite Ha. exact (IH n Hl).
Qed.

Lemma set_active_first_map x b l :
  NoDup (map doc_id l) -> set_active_first x b l = map (deactivate_id x b) l.
Proof.
  induction l as [|d l IH]; simpl; intro H; [reflexivity|].
  inversion H as [|? ? Hn Hd]; subst.
  unfold deactivate_id at 1.
  destruct (Nat.eqb (doc_id d) x) eqn:E; rewrite ?IH; auto.
  f_equal; symmetry.
  transitivity (map (fun y => y) l); [|apply map_id].
  apply map_ext_in; intros y Hy; unfold deactivate_id.
  destruct (Nat.eqb (doc_id y) x) eqn:E'; auto.
  apply Nat.eqb_eq in E, E'. exfalso; apply Hn.
  apply in_map_iff; exists y; split; [congruence|auto].
Qed.

Lemma set_active_first_ids x b l :
  map doc_id (set_active_first x b l) = map doc_id l.
Proof.
  induction l as [|d l IH]; simpl; [reflexivity|].
  destruct (Nat.eqb (doc_id d) x); simpl; rewrite ?IH; reflexivity.
Qed.

Lemma set_active_first_app x b r l :
  In x (map doc_id r) ->
  set_active_first x b (r ++ l) = set_active_first x b r ++ l.
Proof.
  induction r as [|d r IH]; simpl; [tauto|].
  intros [E|H].
  - subst; rewrite Nat.eqb_refl; reflexivity.
  - destruct (Nat.eqb (doc_id d) x); [reflexivity|].
    rewrite IH; auto.
Qed.

Lemma family_In st c f d :
  In d (family st c f) ->
  filename d = f /\ category d = c /\ In d (registry st).
Proof.
  unfold family; intro H; apply filter_In in H as [H1 H2].
  apply andb_true_iff in H2 as [A B].
  apply String.eqb_eq in A, B; auto.
Qed.

(** The active rows that the duplicate scan sees are the active rows of the
    family. *)
Lemma scanned_rows st c f :
  filter (fun d => String.eqb (filename d) f) (get_documents_by_category st c) =
  filter is_active (family st c f).
Proof.
  unfold get_documents_by_category, family.
  apply filter_filter_swap; intro d.
  destruct (String.eqb (category d) c), (is_active d),
    (String.eqb (filename d) f); reflexivity.
Qed.

Lemma family_decompose k fam :
  map version fam = seq 1 (S k) ->
  map is_active fam = active_pattern (S k) ->
  exists pre dl, fam = pre ++ [dl] /\ map version pre = seq 1 k /\
    version dl = S k /\ map is_active pre = repeat false k /\ is_active dl = true.
Proof.
  intros Hv Ha; simpl in Ha.
  apply map_eq_app in Ha as (pre & l2 & -> & Hp & Hl2).
  apply map_eq_cons in Hl2 as (dl & tl & -> & Hd & Htl).
  apply map_eq_nil in Htl; subst tl.
  rewrite seq_S, map_app in Hv; simpl in Hv.
  apply app_inj_tail in Hv as [Hv1 Hv2].
  exists pre, dl; repeat split; auto.
Qed.

Lemma existing_version_of_nil st c f :
  family st c f = [] -> existing_version_of st c f = (0, None).
Proof.
  intro H; unfold existing_version_of.
  rewrite existing_step_filter, scanned_rows, H; reflexivity.
Qed.

Lemma existing_version_of_last st c f pre dl :
  family st c f = pre ++ [dl] -> filter is_active pre = [] ->
  is_active dl = true -> 0 < version dl ->
  existing_version_of st c f = (version dl, Some (doc_id dl)).
Proof.
  intros H Hp Hd Hv; unfold existing_version_of.
  rewrite existing_step_filter, scanned_rows, H, filter_app, Hp; simpl.
  rewrite Hd; simpl.
  assert (Hin : In dl (family st c f)) by (rewrite H; apply in_or_app; simpl; auto).
  destruct (family_In _ _ _ _ Hin) as (Hf & _ & _).
  unfold existing_step; simpl; rewrite Hf, String.eqb_refl.
  apply Nat.ltb_lt in Hv; rewrite Hv; reflexivity.
Qed.

Lemma family_meta (r : list DocumentMetadata) st c f meta :
  registry st = r ++ [meta] -> filename meta = f -> category meta = c ->
  family st c f =
  filter (fun d => String.eqb (filename d) f && String.eqb (category d) c) r
    ++ [meta].
Proof.
  intros Hr Hf Hc; unfold family; rewrite Hr, filter_app; simpl.
  rewrite Hf, Hc, !String.eqb_refl; reflexivity.
Qed.

(** One more upload of a family whose rows carry versions [1..k] with only
    the last one active. *)
Lemma upload_step st fname cat texts k :
  NoDup (map doc_id (registry st)) ->
  Forall (fun d => doc_id d < fresh st) (registry st) ->
  map version (family st (effective_category cat) fname) = seq 1 k ->
  map is_active (family st (effective_category cat) fname) = active_pattern k ->
  NoDup (map doc_id (registry (upload st fname cat texts))) /\
  Forall (fun d => doc_id d < fresh (upload st fname cat texts))
    (registry (upload st fname cat texts)) /\
  map version (family (upload st fname cat texts) (effective_category cat) fname)
    = seq 1 (S k) /\
  map is_active (family (upload st fname cat texts) (effective_category cat) fname)
    = active_pattern (S k).
Proof.
  intros Hnd Hlt Hv Ha.
  set (c := effective_category cat) in *.
  set (meta := mkDoc (fresh st) fname c (k + 1) (List.length texts) true
                 (Some (S (fresh st)))).
  assert (Hfresh : ~ In (fresh st) (map doc_id (registry st))).
  { intro Hin; apply in_map_iff in Hin as (d & Hd & Hin).
    rewrite Forall_forall in Hlt; specialize (Hlt d Hin); lia. }
  assert (Hnd' : NoDup (map doc_id (registry st ++ [meta]))).
  { rewrite map_app; simpl; apply NoDup_app; auto.
    - constructor; [simpl; tauto|constructor].
    - intros a Hin [E|[]]; subst a; contradiction. }
  assert (Hlt' : Forall (fun d => doc_id d < S (S (fresh st))) (registry st ++ [meta])).
  { apply Forall_app; split.
    - eapply Forall_impl; [|exact Hlt]; intros d Hd; simpl in Hd; lia.
    - constructor; [simpl; lia|constructor]. }
  destruct k as [|k].
  - assert (Hf0 : family st c fname = [])
      by (destruct (family st c fname); [reflexivity|discriminate]).
    destruct (upload_effect st fname cat texts 0 None
                (existing_version_of_nil _ _ _ Hf0)) as (Hr & Hfr & _).
    fold c meta in Hr.
    rewrite (family_meta (registry st) _ c fname meta Hr); auto.
    fold (family st c fname); rewrite Hf0.
    rewrite Hr, Hfr; repeat split; auto.
  - destruct (family_decompose k _ Hv Ha)
      as (pre & dl & Hfam & Hvp & Hvd & Hap & Had).
    assert (Hin : In dl (family st c fname))
      by (rewrite Hfam; apply in_or_app; simpl; auto).
    destruct (family_In _ _ _ _ Hin) as (Hdf & Hdc & HdR).
    assert (He : existing_version_of st c fname = (S k, Some (doc_id dl))).
    { rewrite <- Hvd; apply (existing_version_of_last _ _ _ pre);
        auto; [eapply filter_repeat_false; eauto|lia]. }
    destruct (upload_effect st fname cat texts _ _ He) as (Hr & Hfr & _).
    fold c in Hr. change (0 <? S k)%nat with true in Hr. cbv iota in Hr.
    fold meta in Hr.
    assert (Hold : In (doc_id dl) (map doc_id (registry st)))
      by (apply in_map; auto).
    assert (Hdl_lt : doc_id dl < fresh st)
      by (rewrite Forall_forall in Hlt; apply Hlt; auto).
    assert (Hnd_fam : NoDup (map doc_id (pre ++ [dl]))).
    { rewrite <- Hfam; apply NoDup_map_filter; auto. }
    rewrite map_app in Hnd_fam.
    apply (NoDup_remove_2 _ []) in Hnd_fam; rewrite app_nil_r in Hnd_fam.
    assert (Hfam' : family (upload st fname cat texts) c fname =
                    pre ++ [with_active dl false; meta]).
    { unfold family at 1.
      rewrite Hr, set_active_first_map by exact Hnd'.
      rewrite filter_map_swap
        by (intro x; unfold deactivate_id; destruct (Nat.eqb _ _); reflexivity).
      rewrite filter_app.
      change (filter _ (registry st)) with (family st c fname).
      rewrite Hfam.
      assert (Hm : (String.eqb (filename meta) fname && String.eqb (category meta) c)
                   = true) by (unfold meta; simpl; rewrite !String.eqb_refl; auto).
      cbn [filter]; rewrite Hm, <- app_assoc, map_app; cbn [map app].
      assert (Hdm : Nat.eqb (doc_id meta) (doc_id dl) = false)
        by (apply Nat.eqb_neq; unfold meta; simpl; lia).
      unfold deactivate_id at 2 3; rewrite Nat.eqb_refl, Hdm.
      f_equal.
      transitivity (map (fun y => y) pre); [|apply map_id].
      apply map_ext_in; intros y Hy; unfold deactivate_id.
      destruct (Nat.eqb (doc_id y) (doc_id dl)) eqn:Ey; auto.
      apply Nat.eqb_eq in Ey; exfalso; apply Hnd_fam.
      rewrite <- Ey; apply in_map; auto. }
    repeat split.
    + rewrite Hr, set_active_first_ids; exact Hnd'.
    + rewrite Hr, Hfr, Forall_forall; intros d Hd.
      rewrite set_active_first_map in Hd by exact Hnd'.
      apply in_map_iff in Hd as (d0 & <- & Hd0).
      rewrite Forall_forall in Hlt'; specialize (Hlt' d0 Hd0).
      unfold deactivate_id; destruct (Nat.eqb _ _); exact Hlt'.
    + rewrite Hfam', map_app, Hvp; unfold meta; cbn [map version with_active].
      rewrite Hvd, (seq_S (S k)), (seq_S k), <- app_assoc.
      replace (S k + 1) with (1 + S k) by lia; reflexivity.
    + rewrite Hfam', map_app, Hap; unfold meta; cbn [map is_active with_active].
      cbn [active_pattern].
      replace (S k) with (k + 1) by lia.
      rewrite repeat_app, <- app_assoc; reflexivity.
Qed.

Lemma upload_times_inv st fname cat texts n :
  NoDup (map doc_id (registry st)) ->
  Forall (fun d => doc_id d < fresh st) (registry st) ->
  family st (effective_category cat) fname = [] ->
  let st' := upload_times st fname cat texts n in
  NoDup (map doc_id (registry st')) /\
  Forall (fun d => doc_id d < fresh st') (registry st') /\
  map version (family st' (effective_category cat) fname) = seq 1 n /\
  map is_active (family st' (effective_category cat) fname) = active_pattern n.
Proof.
  intros Hnd Hlt Hf; induction n as [|n IH]; simpl.
  - rewrite Hf; auto.
  - destruct IH as (A & B & C & D).
    apply upload_step; auto.
Qed.

(** The row written by one upload is the last row, active, with version one
    more than the largest version among the active rows of its family. *)
Lemma upload_new_row st fname cat texts :
  exists pre, registry (upload st fname cat texts) =
    pre ++ [mkDoc (fresh st) fname (effective_category cat)
              (max_active_version st (effective_category cat) fname + 1)
              (List.length texts) true (Some (S (fresh st)))].
Proof.
  destruct (existing_version_of st (effective_category cat) fname)
    as [ev eo] eqn:E.
  assert (Hev : ev = max_active_version st (effective_category cat) fname).
  { unfold max_active_version.
    pose proof (existing_fold_fst fname
      (get_documents_by_category st (effective_category cat)) 0 None) as H.
    unfold existing_version_of in E; rewrite E in H; simpl in H; exact H. }
  subst ev.
  destruct (upload_effect st fname cat texts _ _ E) as (Hr & _ & _).
  rewrite Hr.
  destruct eo as [old|]; [destruct (Nat.ltb 0 _)|]; eauto.
  assert (Hin : In old (map doc_id (registry st))).
  { pose proof (existing_fold_snd fname
      (get_documents_by_category st (effective_category cat)) 0 None old) as H.
    unfold existing_version_of in E; rewrite E in H.
    destruct (H eq_refl) as [H'|H']; [discriminate|].
    apply in_map_iff in H' as (d & <- & Hd).
    unfold get_documents_by_category in Hd; apply filter_In in Hd as [Hd _].
    apply in_map; exact Hd. }
  rewrite set_active_first_app by exact Hin; eauto.
Qed.

Lemma process_file_logs c acc f :
  version_logs (fst (fst (process_file c acc f))) =
  version_logs (fst (fst acc)).
Proof.
  destruct acc as [[st documents] file_info]; unfold process_file.
  destruct (existing_version_of st c (uf_name f)) as [ev eo].
  destruct (uf_chunks f) as [texts|]; [|reflexivity].
  destruct eo as [old|]; [destruct (Nat.ltb 0 ev)|]; simpl; try reflexivity.
  unfold update_document_status; destruct (find_doc old _); reflexivity.
Qed.

Lemma process_files_logs c files acc :
  version_logs (fst (fst (fold_left (process_file c) files acc))) =
  version_logs (fst (fst acc)).
Proof.
  revert acc; induction files as [|f files IH]; intro acc; simpl; [reflexivity|].
  rewrite IH, process_file_logs; reflexivity.
Qed.

Lemma find_doc_remove_first x r :
  NoDup (map doc_id r) -> find_doc x (remove_first x r) = None.
Proof.
  induction r as [|d r IH]; simpl; intro H; [reflexivity|].
  inversion H as [|? ? Hn Hd]; subst.
  destruct (Nat.eqb (doc_id d) x) eqn:E.
  - apply Nat.eqb_eq in E; subst x.
    clear IH Hd H; induction r as [|d' r IH']; simpl; [reflexivity|].
    destruct (Nat.eqb (doc_id d') (doc_id d)) eqn:E'.
    + apply Nat.eqb_eq in E'; exfalso; apply Hn; simpl; auto.
    + apply IH'; intro; apply Hn; simpl; auto.
  - simpl; rewrite E; auto.
Qed.

Lemma find_doc_set_active x b r d :
  find_doc x r = Some d -> find_doc x (set_active_first x b r) = Some (with_active d b).
Proof.
  induction r as [|d' r IH]; simpl; [discriminate|].
  destruct (Nat.eqb (doc_id d') x) eqn:E; simpl.
  - intro H; injection H as <-; simpl; rewrite E; reflexivity.
  - rewrite E; auto.
Qed.

(** The sibling binding of [db_models.py] would write the log row. *)
Lemma create_log_with_module st x p n :
  version_logs (fst (create_document_version_log_with db_models_datetime st x p n))
  = version_logs st ++ [mkLog x p n].
Proof. reflexivity. Qed.

(** ** C1 *)

(** C1 (code bug). The duplicate scan of [process_documents] only sees the
    ACTIVE rows of the category ([get_documents_by_category] filters on
    [is_active == True]), so the new version is one more than the largest
    ACTIVE version, not the largest version. When no row of the family is
    active (each earlier version was soft-deleted), an upload appends a row
    of version 1 again, whatever versions the family already holds: after
    uploading ["policy.pdf"] in ["HR"], soft-deleting it and uploading it
    again, the family holds two rows of version 1. *)
Theorem process_documents_version_restart st fname cat texts
  (Hinactive : forallb (fun d => negb (is_active d))
                 (family st (effective_category cat) fname) = true) :
  registry (upload st fname cat texts) =
    registry st ++ [mkDoc (fresh st) fname (effective_category cat) 1
                      (List.length texts) true (Some (S (fresh st)))].
Proof.
  assert (E : existing_version_of st (effective_category cat) fname = (0, None)).
  { unfold existing_version_of; rewrite existing_step_filter, scanned_rows.
    assert (Hn : filter is_active (family st (effective_category cat) fname) = []).
    { induction (family st (effective_category cat) fname) as [|d l IH];
        [reflexivity|].
      simpl in Hinactive |- *; apply andb_true_iff in Hinactive as [H1 H2].
      destruct (is_active d); [discriminate|exact (IH H2)]. }
    rewrite Hn; reflexivity. }
  exact (proj1 (upload_effect st fname cat texts 0 None E)).
Qed.

Lemma process_documents_version_restart_witness :
  let st2 := fst (delete_document (upload empty_store "policy.pdf" (Some "HR") ["a"]) 0 false) in
  forallb (fun d => negb (is_active d))
    (family st2 (effective_category (Some "HR")) "policy.pdf") = true /\
  map version (family st2 "HR" "policy.pdf") = [1] /\
  registry (upload st2 "policy.pdf" (Some "HR") ["a"]) =
    registry st2 ++ [mkDoc (fresh st2) "policy.pdf" (effective_category (Some "HR")) 1
                       (List.length ["a"]) true (Some (S (fresh st2)))] /\
  map version (family (upload st2 "policy.pdf" (Some "HR") ["a"]) "HR" "policy.pdf")
    = [1; 1].
Proof.
  intro st2.
  assert (H : forallb (fun d => negb (is_active d))
                (family st2 (effective_category (Some "HR")) "policy.pdf") = true)
    by (vm_compute; reflexivity).
  split; [exact H|split; [vm_compute; reflexivity|split]].
  - exact (process_documents_version_restart st2 "policy.pdf" (Some "HR") ["a"] H).
  - vm_compute; reflexivity.
Defined.

(** ** C3 *)

(** C3 (code bug). Uploading ["policy.pdf"] twice in ["HR"] deactivates
    version 1 and activates version 2, but no [DocumentVersionLog] row is
    written: [create_document_version_log] evaluates
    [datetime.datetime.utcnow()] with [datetime] bound to the class, which
    raises [AttributeError]; its handler returns [False]. In general no
    call of [process_documents] ever adds a log row. *)
Theorem process_documents_writes_no_version_log :
  (let st2 := upload_times empty_store "policy.pdf" (Some "HR") ["a"] 2 in
   map (fun d => (version d, is_active d)) (family st2 "HR" "policy.pdf")
     = [(1, false); (2, true)] /\
   version_logs st2 = []) /\
  (forall st files cat,
     version_logs (fst (process_documents st files cat)) = version_logs st).
Proof.
  split; [split; reflexivity|].
  intros st files cat.
  pose proof (process_files_logs (effective_category cat) files (st, [], [])) as H.
  pose proof (process_documents_with_fields vectorstore_utils_save st files cat) as HF.
  unfold process_documents.
  destruct (fold_left _ files _) as [[st1 documents] file_info].
  simpl in H; destruct HF as (_ & _ & HF); rewrite HF; exact H.
Qed.

(** ** C7 *)

(** C7. With unique doc ids: deleting an unknown doc id fails ([False])
    and changes nothing; a hard delete of a known doc id succeeds, removes its
    row and removes its index directory (nothing else on disk changes); a
    soft delete succeeds, keeps the row with [is_active = False] and leaves
    the disk untouched. *)
Theorem delete_document_effects st x
  (Hnd : NoDup (map doc_id (registry st))) :
  (find_doc x (registry st) = None ->
     delete_document st x true = (st, false) /\
     delete_document st x false = (st, false)) /\
  (forall d, find_doc x (registry st) = Some d ->
     snd (delete_document st x true) = true /\
     registry (fst (delete_document st x true)) = remove_first x (registry st) /\
     find_doc x (registry (fst (delete_document st x true))) = None /\
     (forall p, vector_store_path d = Some p ->
        disk (fst (delete_document st x true)) p = Absent) /\
     (forall q, vector_store_path d <> Some q ->
        disk (fst (delete_document st x true)) q = disk st q) /\
     snd (delete_document st x false) = true /\
     find_doc x (registry (fst (delete_document st x false)))
       = Some (with_active d false) /\
     disk (fst (delete_document st x false)) = disk st).
Proof.
  split.
  - intro H; unfold delete_document; rewrite H; auto.
  - intros d Hd.
    assert (R1 := find_doc_remove_first x _ Hnd).
    assert (R2 := find_doc_set_active x false _ _ Hd).
    unfold delete_document; rewrite Hd.
    destruct (vector_store_path d) as [p|] eqn:Hp;
      [destruct (disk (set_registry st (remove_first x (registry st))) p) eqn:Hdk|];
      simpl in *; repeat split; auto;
      intros q Hq; try discriminate;
      try (injection Hq as <-; auto);
      unfold update_disk; try rewrite Nat.eqb_refl; auto;
      destruct (Nat.eqb q p) eqn:E; auto;
      apply Nat.eqb_eq in E; subst; congruence.
Qed.

Lemma delete_document_effects_witness :
  NoDup (map doc_id (registry (upload empty_store "policy.pdf" (Some "HR") ["a"]))) /\
  find_doc 0 (registry (fst (delete_document
    (upload empty_store "policy.pdf" (Some "HR") ["a"]) 0 true))) = None.
Proof.
  assert (H : NoDup (map doc_id (registry
                (upload empty_store "policy.pdf" (Some "HR") ["a"]))))
    by (simpl; repeat constructor; simpl; tauto).
  split; [exact H|].
  destruct (delete_document_effects _ 0 H) as [_ H2].
  exact (proj1 (proj2 (proj2 (H2 _ eq_refl)))).
Defined.

End RegistryFacts.

(** ** Facts about rebuilding the combined index *)

Module IndexFacts.
Import Registry IndexStore RegistryFacts.

Lemma merge_into_chunks o cs : chunks_of (merge_into o cs) = chunks_of o ++ cs.
Proof. destruct o; reflexivity. Qed.

Lemma load_fold dk docs acc :
  chunks_of (fst (fold_left (load_step dk) docs acc)) =
    chunks_of (fst acc) ++ flat_map (loaded_chunks dk) docs /\
  snd (fold_left (load_step dk) docs acc) =
    snd acc ++ flat_map (load_warning dk) docs /\
  (fst (fold_left (load_step dk) docs acc) = None <->
     fst acc = None /\ existsb (is_loadable dk) docs = false).
Proof.
  revert acc; induction docs as [|d docs IH]; intros [o w].
  - simpl; rewrite !app_nil_r; tauto.
  - cbn [fold_left flat_map existsb].
    destruct (IH (load_step dk (o, w) d)) as (A & B & C).
    rewrite A, B, C.
    unfold load_step, loaded_chunks at 2, load_warning at 2,
      is_loadable at 2.
    destruct (vector_store_path d) as [p|]; [destruct (dk p)|];
      cbn [fst snd orb app].
    + repeat split; tauto.
    + split; [reflexivity|split; [rewrite <- app_assoc; reflexivity|tauto]].
    + split; [rewrite merge_into_chunks, <- app_assoc; reflexivity|].
      split; [reflexivity|].
      split; intros [H1 H2]; [destruct o; discriminate|discriminate].
    + repeat split; tauto.
Qed.

Lemma load_vectorstores_fold st :
  chunks_of (fst (load_vectorstores st)) =
    flat_map (loaded_chunks (disk st)) (get_active_documents st) /\
  snd (load_vectorstores st) =
    flat_map (load_warning (disk st)) (get_active_documents st) /\
  (fst (load_vectorstores st) = None <->
     existsb (is_loadable (disk st)) (get_active_documents st) = false).
Proof.
  unfold load_vectorstores.
  destruct (get_active_documents st) as [|d ds] eqn:E; [simpl; tauto|].
  rewrite <- E.
  destruct (load_fold (disk st) (get_active_documents st) (None, []))
    as (A & B & C).
  rewrite A, B, C; simpl; tauto.
Qed.

Lemma in_loaded_chunks dk docs ch :
  In ch (flat_map (loaded_chunks dk) docs) <->
  exists d p cs, In d docs /\ vector_store_path d = Some p /\
    dk p = FaissIndex cs /\ In ch cs.
Proof.
  rewrite in_flat_map; split.
  - intros (d & Hd & Hc); unfold loaded_chunks in Hc.
    destruct (vector_store_path d) as [p|] eqn:Ep; [|contradiction].
    destruct (dk p) as [| |cs] eqn:Ed; try contradiction.
    exists d, p, cs; auto.
  - intros (d & p & cs & Hd & Hp & Hk & Hc); exists d; split; auto.
    unfold loaded_chunks; rewrite Hp, Hk; exact Hc.
Qed.

Lemma filter_tagged did f c v ts :
  filter (fun ch => Nat.eqb (chunk_doc_id ch) did)
    (map (fun t => mkChunk t f c did v) ts) =
  map (fun t => mkChunk t f c did v) ts.
Proof.
  induction ts as [|t ts IH]; simpl; [reflexivity|].
  rewrite Nat.eqb_refl, IH; reflexivity.
Qed.

Lemma existing_version_max st c f :
  fst (existing_version_of st c f) = max_active_version st c f.
Proof.
  unfold existing_version_of, max_active_version.
  rewrite existing_fold_fst; simpl; reflexivity.
Qed.

(** One upload touches the disk at the fresh path of the new row only:
    [app.process_documents] writes its index there, while
    [vectorstore_utils.process_documents] only creates the directory before
    [save_local] raises. *)
Lemma upload_with_disk sc st fname cat texts q :
  disk (fst (process_documents_with sc st [mkUpload fname (Some texts)] cat)) q =
  if Nat.eqb q (S (fresh st)) then
    match texts with
    | [] => disk st q
    | _ :: _ =>
        match sc with
        | SavePath =>
            FaissIndex (map (fun t => mkChunk t fname (effective_category cat)
                              (fresh st)
                              (max_active_version st (effective_category cat) fname + 1))
                          texts)
        | SaveWithKeyword =>
            match disk st q with
            | Absent => Unreadable
            | e => e
            end
        end
    end
  else disk st q.
Proof.
  rewrite <- existing_version_max.
  destruct (existing_version_of st (effective_category cat) fname)
    as [ev eo] eqn:E; simpl fst.
  unfold process_documents_with. simpl fold_left.
  rewrite E.
  set (st2 := match eo with
              | Some old => if Nat.ltb 0 ev then _ else _
              | None => _ end).
  assert (Hd2 : disk st2 = disk st).
  { subst st2. destruct eo as [old|]; [destruct (Nat.ltb 0 ev)|];
      simpl; auto.
    unfold update_document_status.
    destruct (find_doc old _); reflexivity. }
  destruct texts as [|t ts]; simpl app.
  - cbn [map fst]; cbn iota. rewrite Hd2. destruct (Nat.eqb q _); reflexivity.
  - cbn [save_indexes].
    rewrite (filter_tagged (fresh st) fname (effective_category cat) (ev + 1) (t :: ts)).
    cbn [map]. unfold makedirs; rewrite Hd2.
    destruct sc; simpl; unfold set_disk, update_disk; cbn [disk];
      destruct (disk st (S (fresh st))) eqn:Ed; cbn [disk];
      destruct (Nat.eqb_spec q (S (fresh st))) as [->|Hq];
      rewrite ?Hd2, ?Ed; reflexivity.
Qed.

(** [vectorstore_utils.process_documents] on one file with chunks ends in
    [TypeError]; on a file with no chunks it returns [[]]. *)
Lemma upload_outcome st fname cat texts :
  snd (process_documents st [mkUpload fname (Some texts)] cat) =
  match texts with
  | [] => Returned []
  | _ :: _ => Raised "TypeError"
  end.
Proof.
  destruct (existing_version_of st (effective_category cat) fname)
    as [ev eo] eqn:E.
  unfold process_documents, process_documents_with. simpl fold_left.
  rewrite E.
  destruct texts as [|t ts]; simpl app; [reflexivity|].
  cbn [save_indexes].
  rewrite (filter_tagged (fresh st) fname (effective_category cat) (ev + 1) (t :: ts)).
  reflexivity.
Qed.

Lemma upload_disk st fname cat texts q :
  disk (upload st fname cat texts) q =
  if Nat.eqb q (S (fresh st)) then
    match texts with
    | [] => disk st q
    | _ :: _ =>
        match disk st q with
        | Absent => Unreadable
        | e => e
        end
    end
  else disk st q.
Proof. exact (upload_with_disk vectorstore_utils_save st fname cat texts q). Qed.

Lemma app_upload_disk st fname cat texts q :
  disk (app_upload st fname cat texts) q =
  if Nat.eqb q (S (fresh st)) then
    match texts with
    | [] => disk st q
    | _ :: _ =>
        FaissIndex (map (fun t => mkChunk t fname (effective_category cat)
                          (fresh st)
                          (max_active_version st (effective_category cat) fname + 1))
                      texts)
    end
  else disk st q.
Proof. exact (upload_with_disk app_save st fname cat texts q). Qed.

Lemma in_set_active_first x b l d' :
  In d' (set_active_first x b l) ->
  exists d, In d l /\ (d' = d \/ d' = with_active d b).
Proof.
  induction l as [|d l IH]; simpl; [tauto|].
  destruct (Nat.eqb (doc_id d) x); simpl.
  - intros [<-|H]; [exists d; auto|exists d'; auto].
  - intros [<-|H]; [exists d; auto|].
    destruct (IH H) as (d0 & H0 & E); exists d0; auto.
Qed.

Lemma row_fields d d' :
  d' = d \/ d' = with_active d false ->
  doc_id d' = doc_id d /\ filename d' = filename d /\ category d' = category d /\
  version d' = version d /\ vector_store_path d' = vector_store_path d.
Proof. intros [->| ->]; repeat split. Qed.

(** The rows after one upload: the old rows, possibly deactivated, and the
    new row. *)
Lemma upload_rows st fname cat texts :
  let meta := mkDoc (fresh st) fname (effective_category cat)
                (max_active_version st (effective_category cat) fname + 1)
                (List.length texts) true (Some (S (fresh st))) in
  map doc_id (registry (upload st fname cat texts)) =
    map doc_id (registry st) ++ [fresh st] /\
  (forall d', In d' (registry (upload st fname cat texts)) ->
     exists d, In d (registry st ++ [meta]) /\
       (d' = d \/ d' = with_active d false)) /\
  fresh (upload st fname cat texts) = S (S (fresh st)).
Proof.
  intros meta.
  destruct (existing_version_of st (effective_category cat) fname)
    as [ev eo] eqn:E.
  assert (Hev : ev = max_active_version st (effective_category cat) fname)
    by (rewrite <- existing_version_max, E; reflexivity).
  destruct (upload_effect st fname cat texts ev eo E) as (Hr & Hf & _).
  rewrite Hev in Hr; fold meta in Hr.
  rewrite Hr, Hf.
  destruct eo as [old|]; [destruct (Nat.ltb 0 _)|];
    rewrite ?set_active_first_ids, map_app; repeat split;
    intros d' Hd'; try (exists d'; auto; fail).
  exact (in_set_active_first _ _ _ _ Hd').
Qed.

Lemma upload_invariants st fname cat texts :
  uuids_fresh st -> index_tagged st ->
  uuids_fresh (upload st fname cat texts) /\
  index_tagged (upload st fname cat texts).
Proof.
  intros (Hnd & Hlt & Hp & Hab) Ht.
  destruct (upload_rows st fname cat texts) as (Hids & Hrows & Hfr).
  assert (Hfresh : ~ In (fresh st) (map doc_id (registry st))).
  { intro Hin; apply in_map_iff in Hin as (d & Hd & Hin).
    rewrite Forall_forall in Hlt; specialize (Hlt d Hin); lia. }
  refine (conj (conj _ (conj _ (conj _ _))) _).
  - rewrite Hids; apply NoDup_app; auto.
    + constructor; [simpl; tauto|constructor].
    + intros a Hin [E|[]]; subst a; contradiction.
  - rewrite Forall_forall, Hfr; intros d' Hd'.
    destruct (Hrows d' Hd') as (d & Hd & Heq).
    destruct (row_fields _ _ Heq) as (-> & _).
    apply in_app_or in Hd as [Hd|[<-|[]]]; simpl; [|lia].
    rewrite Forall_forall in Hlt; specialize (Hlt d Hd); lia.
  - intros d' q Hd' Hq; rewrite Hfr.
    destruct (Hrows d' Hd') as (d & Hd & Heq).
    destruct (row_fields _ _ Heq) as (_ & _ & _ & _ & Hpd).
    rewrite Hpd in Hq.
    apply in_app_or in Hd as [Hd|[<-|[]]].
    + specialize (Hp d q Hd Hq); lia.
    + injection Hq as <-; lia.
  - intros q Hq; rewrite Hfr in Hq; rewrite upload_disk.
    replace (Nat.eqb q (S (fresh st))) with false
      by (symmetry; apply Nat.eqb_neq; lia).
    apply Hab; lia.
  - intros d' q ks ch Hd' Hq Hdisk Hch.
    destruct (Hrows d' Hd') as (d & Hd & Heq).
    destruct (row_fields _ _ Heq) as (-> & -> & -> & -> & Hpd).
    rewrite Hpd in Hq; rewrite upload_disk in Hdisk.
    apply in_app_or in Hd as [Hd|[<-|[]]].
    + specialize (Hp d q Hd Hq).
      replace (Nat.eqb q (S (fresh st))) with false in Hdisk
        by (symmetry; apply Nat.eqb_neq; lia).
      exact (Ht d q ks ch Hd Hq Hdisk Hch).
    + injection Hq as <-; rewrite Nat.eqb_refl, Hab in Hdisk by lia.
      destruct texts; discriminate.
Qed.

Lemma upload_times_invariants st fname cat texts n :
  uuids_fresh st -> index_tagged st ->
  uuids_fresh (upload_times st fname cat texts n) /\
  index_tagged (upload_times st fname cat texts n).
Proof.
  intros Hu Ht; induction n as [|n IH]; simpl; [auto|].
  destruct IH; apply upload_invariants; auto.
Qed.

Lemma active_member_version fam n d :
  map version fam = seq 1 n -> map is_active fam = active_pattern n ->
  In d fam -> is_active d = true -> version d = n.
Proof.
  destruct n as [|k]; intros Hv Ha Hin Hd.
  - apply map_eq_nil in Hv; subst; contradiction.
  - destruct (family_decompose k _ Hv Ha)
      as (pre & dl & -> & _ & Hvd & Hap & _).
    apply in_app_or in Hin as [Hin|[<-|[]]]; [|exact Hvd].
    assert (Hf : In (is_active d) (repeat false k))
      by (rewrite <- Hap; apply in_map; exact Hin).
    apply repeat_spec in Hf; congruence.
Qed.

(** The chunks of the rebuilt index are those of the loadable indexes of
    the active rows. *)
Lemma load_vectorstores_chunks st ch :
  In ch (chunks_of (fst (load_vectorstores st))) <->
  exists d p cs, In d (registry st) /\ is_active d = true /\
    vector_store_path d = Some p /\ disk st p = FaissIndex cs /\ In ch cs.
Proof.
  destruct (load_vectorstores_fold st) as (A & _ & _).
  rewrite A, in_loaded_chunks.
  unfold get_active_documents; split.
  - intros (d & p & cs & Hd & R); apply filter_In in Hd as [Hd Ha].
    exists d, p, cs; auto.
  - intros (d & p & cs & Hd & Ha & R); exists d, p, cs.
    split; [apply filter_In; auto|exact R].
Qed.

Lemma load_warning_filter dk docs :
  flat_map (load_warning dk) docs = map filename (filter (is_unreadable dk) docs).
Proof.
  induction docs as [|d docs IH]; simpl; [reflexivity|].
  unfold load_warning at 1, is_unreadable at 1.
  destruct (vector_store_path d) as [p|]; [destruct (dk p)|]; simpl;
    rewrite IH; reflexivity.
Qed.

(** C2 (code bug). [vectorstore_utils.process_documents] never saves an
    index: its call [save_local(path, allow_dangerous_deserialization=True)]
    raises [TypeError] after [os.makedirs] has created the directory. An
    upload of a file with chunks therefore registers an active row whose
    index directory exists but is empty; the rebuilt index holds none of its
    chunks, and [load_vectorstores] warns about the file instead. *)
Theorem process_documents_index_never_saved st fname cat texts
  (Hu : uuids_fresh st) (Ht : index_tagged st) (Hne : texts <> []) :
  let st' := upload st fname cat texts in
  snd (process_documents st [mkUpload fname (Some texts)] cat) = Raised "TypeError" /\
  exists d, In d (get_active_documents st') /\ doc_id d = fresh st /\
    filename d = fname /\ chunks d = List.length texts /\
    vector_store_path d = Some (S (fresh st)) /\
    disk st' (S (fresh st)) = Unreadable /\
    (forall ch, In ch (chunks_of (fst (load_vectorstores st'))) ->
       chunk_doc_id ch <> doc_id d) /\
    In fname (snd (load_vectorstores st')).
Proof.
  intro st'.
  assert (Hdisk : disk st' (S (fresh st)) = Unreadable).
  { unfold st'; rewrite upload_disk, Nat.eqb_refl.
    destruct Hu as (_ & _ & _ & Hab); rewrite Hab by lia.
    destruct texts; [contradiction|reflexivity]. }
  split; [rewrite upload_outcome; destruct texts; [contradiction|reflexivity]|].
  destruct (upload_new_row st fname cat texts) as (pre & Hreg); fold st' in Hreg.
  set (meta := mkDoc (fresh st) fname (effective_category cat)
                 (max_active_version st (effective_category cat) fname + 1)
                 (List.length texts) true (Some (S (fresh st)))) in Hreg.
  assert (Hact : In meta (get_active_documents st')).
  { unfold get_active_documents; apply filter_In; split; [|reflexivity].
    rewrite Hreg; apply in_or_app; right; left; reflexivity. }
  exists meta; split; [exact Hact|].
  split; [reflexivity|split; [reflexivity|split; [reflexivity|]]].
  split; [reflexivity|split; [exact Hdisk|split]].
  - intros ch Hch.
    destruct (upload_invariants st fname cat texts Hu Ht) as [_ T1]; fold st' in T1.
    apply load_vectorstores_chunks in Hch as (d & p & cs & Hd & _ & Hp & Hk & Hin).
    destruct (T1 d p cs ch Hd Hp Hk Hin) as (-> & _).
    destruct (upload_rows st fname cat texts) as (_ & Hrows & _); fold st' in Hrows.
    destruct (Hrows d Hd) as (d0 & Hd0 & Heq).
    destruct (row_fields _ _ Heq) as (-> & _ & _ & _ & Hpd).
    apply in_app_or in Hd0 as [Hd0|[<-|[]]].
    + destruct Hu as (_ & Hlt & _); rewrite Forall_forall in Hlt.
      specialize (Hlt d0 Hd0); cbn [doc_id meta]; lia.
    + rewrite Hpd in Hp; cbn [vector_store_path] in Hp; injection Hp as <-.
      rewrite Hdisk in Hk; discriminate.
  - destruct (load_vectorstores_fold st') as (_ & W & _).
    rewrite W, load_warning_filter.
    apply (in_map filename (filter (is_unreadable (disk st')) (get_active_documents st')) meta).
    apply filter_In; split; [exact Hact|].
    unfold is_unreadable; cbn [vector_store_path meta]; rewrite Hdisk; reflexivity.
Qed.

Lemma process_documents_index_never_saved_witness :
  (uuids_fresh empty_store /\ index_tagged empty_store /\ ["a"] <> []) /\
  snd (process_documents empty_store [mkUpload "policy.pdf" (Some ["a"])] (Some "HR"))
    = Raised "TypeError" /\
  load_vectorstores (upload empty_store "policy.pdf" (Some "HR") ["a"])
    = (None, ["policy.pdf"]).
Proof.
  assert (Hu : uuids_fresh empty_store).
  { split; [constructor|split; [constructor|split]].
    - intros d p [].
    - reflexivity. }
  assert (Ht : index_tagged empty_store) by (intros d p cs ch []).
  assert (Hne : ["a"] <> []) by discriminate.
  split; [auto|split].
  - exact (proj1 (process_documents_index_never_saved empty_store "policy.pdf"
                    (Some "HR") ["a"] Hu Ht Hne)).
  - vm_compute; reflexivity.
Defined.

(** C6 (counterexample). A missing index directory of an active row is
    skipped without a warning: two files uploaded through
    [app.process_documents], then the directory of the first one removed. *)
Lemma load_vectorstores_missing_path_no_warning :
  let st := set_disk (app_upload (app_upload empty_store "a.pdf" (Some "HR") ["x"])
                        "b.pdf" (Some "HR") ["y"]) 1 Absent in
  In (mkDoc 0 "a.pdf" "HR" 1 1 true (Some 1)) (get_active_documents st) /\
  disk st 1 = Absent /\
  load_vectorstores st = (Some [mkChunk "y" "b.pdf" "HR" 2 1], []).
Proof.
  simpl; split; [auto|split; reflexivity].
Qed.

(** C6 (amended). The rebuild never aborts on a row: the combined index is
    made of the loadable indexes of the active rows, in order ([None] when
    there is none), and the warnings name exactly the active rows whose
    index directory exists but fails to load; a row whose path is missing
    is skipped without a warning. *)
Theorem load_vectorstores_skips_unloadable st :
  let '(combined, warnings) := load_vectorstores st in
  chunks_of combined =
    flat_map (loaded_chunks (disk st)) (get_active_documents st) /\
  (combined = None <->
     existsb (is_loadable (disk st)) (get_active_documents st) = false) /\
  warnings =
    map filename (filter (is_unreadable (disk st)) (get_active_documents st)).
Proof.
  destruct (load_vectorstores_fold st) as (A & B & C).
  destruct (load_vectorstores st) as [combined warnings]; simpl in *.
  rewrite <- load_warning_filter; auto.
Qed.

End IndexFacts.

(** ** Facts about re-ranking and query enhancement *)

Module RerankFacts.
Import Rerank Floats.PrimFloat SpecFloat FloatOps.
Local Set Warnings "-inexact-float".

Lemma keyword_matches_spec lower query content :
  keyword_matches lower query content = spec_matches lower query content.
Proof.
  unfold keyword_matches, spec_matches, query_words.
  induction (PyStr.split query) as [|w ws IH]; simpl; [reflexivity|].
  destruct (Nat.ltb 3 (PyStr.len w)); simpl; [|exact IH].
  destruct (PyStr.contains (lower w) (lower content)); simpl;
    rewrite IH; reflexivity.
Qed.

(** The loop body computes the binary64 products of the amended statement
    for every candidate. *)
Lemma score_composite lower query filters d :
  score lower query filters d =
  composite_float (category_bonus filters (metadata d)) (md_version (metadata d))
    (spec_matches lower query (page_content d)).
Proof.
  unfold score, composite_float.
  rewrite <- keyword_matches_spec.
  destruct d as [content [mc mv mo]]; cbn [metadata md_version page_content].
  destruct (metadata_truthy (mkMeta mc mv mo)) eqn:Ht; [reflexivity|].
  destruct mc, mv, mo; try discriminate.
  unfold category_bonus; cbn [md_category].
  destruct (filters_truthy filters), filters as [f|]; simpl;
    try destruct (lookup "category" f); reflexivity.
Qed.

(** [SFcompare] is antisymmetric. *)
Lemma SFcompare_swap a b : SFcompare b a = option_map CompOpp (SFcompare a b).
Proof.
  destruct a as [sa|sa| |sa ma ea], b as [sb|sb| |sb mb eb]; simpl;
    try reflexivity; try (destruct sa; reflexivity); try (destruct sb; reflexivity);
    try (destruct sa, sb; reflexivity).
  assert (Hm : Pos.compare_cont Eq mb ma = CompOpp (Pos.compare_cont Eq ma mb))
    by (symmetry; exact (Pos.compare_cont_antisym ma mb Eq)).
  assert (He : Z.compare eb ea = CompOpp (Z.compare ea eb))
    by apply Z.compare_antisym.
  destruct sa, sb; simpl; try reflexivity; rewrite He;
    destruct (Z.compare ea eb); simpl;
    rewrite ?Hm, ?CompOpp_involutive; reflexivity.
Qed.

(** Two values compare equal exactly when they are the same number: two
    zeros, or the same value other than NaN. *)
Lemma SFcompare_Eq a b :
  SFcompare a b = Some Eq <->
  (exists s1 s2, a = S754_zero s1 /\ b = S754_zero s2) \/ (a = b /\ a <> S754_nan).
Proof.
  split.
  - destruct a as [sa|sa| |sa ma ea], b as [sb|sb| |sb mb eb]; simpl; intro H;
      try discriminate; try (left; eauto; fail);
      try (destruct sa; discriminate); try (destruct sb; discriminate).
    all: right; split; [|discriminate].
    all: destruct sa, sb; try discriminate; try reflexivity.
    all: destruct (Z.compare ea eb) eqn:E; try discriminate;
      apply Z.compare_eq in E; subst eb; injection H as H.
    + apply CompOpp_iff in H; simpl in H.
      apply Pos.compare_eq in H; subst; reflexivity.
    + apply Pos.compare_eq in H; subst; reflexivity.
  - intros [(s1 & s2 & -> & ->)|[<- Hn]]; [reflexivity|].
    destruct a as [sa|sa| |sa ma ea]; simpl; [reflexivity|destruct sa; reflexivity|
      contradiction|].
    destruct sa; rewrite Z.compare_refl, Pos.compare_cont_refl; reflexivity.
Qed.

Lemma SFcompare_Eq_trans a b c :
  SFcompare a c = Some Eq -> SFcompare b c = Some Eq -> SFcompare a b = Some Eq.
Proof.
  rewrite !SFcompare_Eq.
  intros [(s1 & s2 & Ha & Hc)|[Ha Hn]] [(t1 & t2 & Hb & Hc')|[Hb Hn']]; subst.
  - left; eauto.
  - left; eauto.
  - left; eauto.
  - right; auto.
Qed.

Lemma ltb_asym x y : PrimFloat.ltb x y = true -> PrimFloat.ltb y x = false.
Proof.
  rewrite !FloatAxioms.ltb_spec; unfold SFltb.
  rewrite (SFcompare_swap (Prim2SF x) (Prim2SF y)).
  destruct (SFcompare (Prim2SF x) (Prim2SF y)) as [[]|]; simpl; intro H;
    first [reflexivity | discriminate H].
Qed.

Lemma eqb_ltb x y s :
  PrimFloat.eqb x s = true -> PrimFloat.eqb y s = true -> PrimFloat.ltb x y = false.
Proof.
  rewrite !FloatAxioms.eqb_spec, FloatAxioms.ltb_spec; unfold SFeqb, SFltb.
  intros Hx Hy.
  destruct (SFcompare (Prim2SF x) (Prim2SF s)) as [[]|] eqn:Ex; try discriminate.
  destruct (SFcompare (Prim2SF y) (Prim2SF s)) as [[]|] eqn:Ey; try discriminate.
  rewrite (SFcompare_Eq_trans _ _ _ Ex Ey); reflexivity.
Qed.

Lemma insert_desc_perm {A} (x : A * float) l :
  Permutation (insert_desc x l) (x :: l).
Proof.
  induction l as [|y l IH]; simpl; [auto|].
  destruct (PrimFloat.ltb (snd x) (snd y)); [|auto].
  eapply perm_trans; [apply perm_skip, IH|apply perm_swap].
Qed.

Lemma sort_desc_perm {A} (l : list (A * float)) : Permutation (sort_desc l) l.
Proof.
  induction l as [|x l IH]; simpl; [auto|].
  eapply perm_trans; [apply insert_desc_perm|auto].
Qed.

Lemma insert_desc_hd {A} (x y : A * float) l :
  HdRel desc y l -> desc y x -> HdRel desc y (insert_desc x l).
Proof.
  destruct l as [|z l]; simpl; intros H Hyx; [constructor; auto|].
  destruct (PrimFloat.ltb (snd x) (snd z)); constructor; auto.
  inversion H; auto.
Qed.

Lemma insert_desc_sorted {A} (x : A * float) l :
  Sorted desc l -> Sorted desc (insert_desc x l).
Proof.
  induction l as [|y l IH]; simpl; intro H.
  - constructor; constructor.
  - destruct (PrimFloat.ltb (snd x) (snd y)) eqn:E.
    + apply Sorted_inv in H as [Hl Hy].
      constructor; [apply IH; exact Hl|].
      apply insert_desc_hd; auto.
      unfold desc; apply ltb_asym; exact E.
    + constructor; [exact H|constructor; exact E].
Qed.

Lemma sort_desc_sorted {A} (l : list (A * float)) : Sorted desc (sort_desc l).
Proof.
  induction l as [|x l IH]; simpl; [constructor|].
  apply insert_desc_sorted; exact IH.
Qed.

Lemma insert_desc_stable {A} (x : A * float) l s :
  filter (fun y => PrimFloat.eqb (snd y) s) (insert_desc x l) =
  filter (fun y => PrimFloat.eqb (snd y) s) (x :: l).
Proof.
  induction l as [|y l IH]; simpl; [reflexivity|].
  destruct (PrimFloat.ltb (snd x) (snd y)) eqn:E; [|reflexivity].
  simpl; rewrite IH; simpl.
  destruct (PrimFloat.eqb (snd y) s) eqn:Ey, (PrimFloat.eqb (snd x) s) eqn:Ex;
    try reflexivity.
  rewrite (eqb_ltb _ _ _ Ex Ey) in E; discriminate.
Qed.

(** Among candidates of equal score the order of the input is kept. *)
Lemma sort_desc_stable {A} (l : list (A * float)) s :
  filter (fun y => PrimFloat.eqb (snd y) s) (sort_desc l) =
  filter (fun y => PrimFloat.eqb (snd y) s) l.
Proof.
  induction l as [|x l IH]; simpl; [reflexivity|].
  rewrite insert_desc_stable; simpl; rewrite IH; reflexivity.
Qed.

(** C4 (counterexample). Ties of the exact composite score are not ties of
    the code's binary64 score. Candidate [d1] (version 4, 4 matching words)
    and [d2] (version 1, 6 matching words) both have the composite score
    1.68 of the specification, so the specification keeps [d1], the
    earlier one, first; the code scores them 1.68 and 1.6800000000000002
    and ranks [d2] first. *)
Lemma improved_vector_search_exact_tie_reordered :
  let d1 := mkDocument "alpha bravo charlie delta" (mkMeta None (Some 4) []) in
  let d2 := mkDocument "alpha bravo charlie delta echos foxtrot"
              (mkMeta None (Some 1) []) in
  let q := "alpha bravo charlie delta echos foxtrot" in
  spec_matches PyStr.lower q (page_content d1) = 4 /\
  spec_matches PyStr.lower q (page_content d2) = 6 /\
  (composite_spec None None 4 4 == composite_spec None None 1 6)%Q /\
  score PyStr.lower q None d1 = 1.68%float /\
  score PyStr.lower q None d2 = 1.6800000000000002%float /\
  improved_vector_search (fun _ _ _ => Some [d1; d2]) q None None 5 = [d2; d1].
Proof.
  vm_compute; repeat split; reflexivity.
Qed.

(** C4 (amended). On a successful search, the result is the first [top_k]
    of a stable sort of the candidates by descending score, where the
    score of a candidate is computed in binary64: [1.0], times [1.2] when
    a category filter is given and the candidate's category matches, times
    [1.0 + float(version) * 0.05] when it has a version, times
    [1.0 + N * 0.1], each operation rounded in this order; ties are
    candidates of equal float score. In the example of the specification
    C1 scores 1.656 and C2 1.05, and C1 ranks first. *)
Theorem improved_vector_search_float_ranks lower ss query context filters top_k results
  (Hs : ss (enhance_query query context) (top_k * 2)
          (if filters_truthy filters then filters else None) = Some results) :
  (exists ranked,
     improved_vector_search_with lower ss query context filters top_k =
       map fst (firstn top_k ranked) /\
     Permutation ranked (map (fun d => (d, score lower query filters d)) results) /\
     Sorted desc ranked /\
     (forall s, filter (fun y => PrimFloat.eqb (snd y) s) ranked =
                filter (fun y => PrimFloat.eqb (snd y) s)
                  (map (fun d => (d, score lower query filters d)) results))) /\
  (forall d, score lower query filters d =
     composite_float (category_bonus filters (metadata d)) (md_version (metadata d))
       (spec_matches lower query (page_content d))) /\
  (let c1 := mkDocument "Annual leave rules" (mkMeta (Some "HR") (Some 3) []) in
   let c2 := mkDocument "Budget report" (mkMeta (Some "Finance") (Some 1) []) in
   let hr := Some [("category", "HR")] in
   spec_matches PyStr.lower "annual leave policy" (page_content c1) = 2 /\
   spec_matches PyStr.lower "annual leave policy" (page_content c2) = 0 /\
   score PyStr.lower "annual leave policy" hr c1 = 1.656%float /\
   score PyStr.lower "annual leave policy" hr c2 = 1.05%float /\
   improved_vector_search (fun _ _ _ => Some [c2; c1])
     "annual leave policy" None hr 5 = [c1; c2]).
Proof.
  split; [|split; [exact (score_composite lower query filters)|]].
  - exists (sort_desc (map (fun d => (d, score lower query filters d)) results)).
    split; [|split; [apply sort_desc_perm|split;
                       [apply sort_desc_sorted|apply sort_desc_stable]]].
    unfold improved_vector_search_with; rewrite Hs.
    destruct results; [simpl; rewrite firstn_nil|]; reflexivity.
  - vm_compute; repeat split; reflexivity.
Qed.

Lemma improved_vector_search_float_ranks_witness :
  (fun (_ : option string) (_ : nat) (_ : option Filters) =>
     Some [mkDocument "Budget report" (mkMeta (Some "Finance") (Some 1) []);
           mkDocument "Annual leave rules" (mkMeta (Some "HR") (Some 3) [])])
    (enhance_query "annual leave policy" None) (5 * 2)
    (if filters_truthy (Some [("category", "HR")])
     then Some [("category", "HR")] else None) =
  Some [mkDocument "Budget report" (mkMeta (Some "Finance") (Some 1) []);
        mkDocument "Annual leave rules" (mkMeta (Some "HR") (Some 3) [])] /\
  improved_vector_search_with PyStr.lower
    (fun _ _ _ =>
       Some [mkDocument "Budget report" (mkMeta (Some "Finance") (Some 1) []);
             mkDocument "Annual leave rules" (mkMeta (Some "HR") (Some 3) [])])
    "annual leave policy" None (Some [("category", "HR")]) 5 =
  [mkDocument "Annual leave rules" (mkMeta (Some "HR") (Some 3) []);
   mkDocument "Budget report" (mkMeta (Some "Finance") (Some 1) [])].
Proof.
  split; [reflexivity|].
  pose proof (improved_vector_search_float_ranks PyStr.lower
       (fun _ _ _ =>
          Some [mkDocument "Budget report" (mkMeta (Some "Finance") (Some 1) []);
                mkDocument "Annual leave rules" (mkMeta (Some "HR") (Some 3) [])])
       "annual leave policy" None (Some [("category", "HR")]) 5
       [mkDocument "Budget report" (mkMeta (Some "Finance") (Some 1) []);
        mkDocument "Annual leave rules" (mkMeta (Some "HR") (Some 3) [])]
       eq_refl) as H.
  cbv zeta in H; destruct H as (_ & _ & _ & _ & _ & _ & H); exact H.
Defined.

(** C8. [enhance_query] returns [None] for every non-empty context, also
    for a query with filter syntax, so [improved_vector_search] hands
    [None] instead of the query to the vector search; only without a
    context is the query passed on unchanged. *)
Theorem enhance_query_filter_syntax_dropped :
  enhance_query "category:HR policy" (Some "previous question") = None /\
  improved_vector_search echo_search "category:HR policy"
    (Some "previous question") None 5 = [] /\
  improved_vector_search echo_search "category:HR policy" None None 5 =
    [mkDocument "category:HR policy" (mkMeta None None [])] /\
  (forall q c, c <> "" -> enhance_query q (Some c) = None) /\
  (forall q, enhance_query q None = Some q /\ enhance_query q (Some "") = Some q).
Proof.
  split; [reflexivity|split; [reflexivity|split; [vm_compute; reflexivity|split]]].
  - intros q c Hc; simpl.
    destruct (String.eqb c "") eqn:E; [apply String.eqb_eq in E; contradiction|].
    reflexivity.
  - intro q; split; reflexivity.
Qed.

End RerankFacts.

(** ** Facts about the workflow and [generate_response] *)

Module PipelineFacts.
Import Pipeline.

Lemma similarity_top_nil similarity k q :
  similarity_top similarity k q [] = [].
Proof. unfold similarity_top; simpl; rewrite firstn_nil; reflexivity. Qed.

Lemma no_docs_note_nonempty a : (a ++ no_docs_note)%string <> "".
Proof. destruct a; discriminate. Qed.

(** C5. Retrieval against an absent or empty index gives no context and no
    sources; the workflow still calls the chat model, on the prompt for
    missing context, and its answer is the completion followed by the note
    recommending documents, a non-empty text with no list of sources;
    without a vector store [generate_response] answers on the plain path
    with the same note. *)
Theorem empty_index_ungrounded_answer similarity vs llm q a a'
  (Hvs : vs = None \/ vs = Some [])
  (Hrag : llm 0 (RagPrompt q no_context_text) = Completed a)
  (Hplain : llm 0 (PlainPrompt q) = Completed a') :
  context (retrieve_documents similarity vs (initial_state q)) = [] /\
  sources (retrieve_documents similarity vs (initial_state q)) = [] /\
  run_workflow similarity vs llm (initial_state q) =
    Ok (mkState q [] (a ++ no_docs_note)%string []
          (PyStr.contains not_found_marker a)) /\
  (a ++ no_docs_note)%string <> "" /\
  (forall hw, reply (generate_response similarity None hw llm q) =
     (a' ++ no_docs_note)%string) /\
  reply (generate_response similarity (Some []) true llm q) =
    (a ++ no_docs_note)%string.
Proof.
  assert (Hr : forall vs', vs' = None \/ vs' = Some [] ->
    retrieve_documents similarity vs' (initial_state q) = mkState q [] "" [] false).
  { intros vs' [-> | ->]; [reflexivity|].
    unfold retrieve_documents; rewrite similarity_top_nil; reflexivity. }
  assert (Hw : forall vs', vs' = None \/ vs' = Some [] ->
    run_workflow similarity vs' llm (initial_state q) =
    Ok (mkState q [] (a ++ no_docs_note)%string []
          (PyStr.contains not_found_marker a))).
  { intros vs' H; unfold run_workflow; rewrite (Hr vs' H).
    unfold generate_answer; simpl; rewrite Hrag; reflexivity. }
  rewrite (Hr vs Hvs).
  split; [reflexivity|split; [reflexivity|split; [exact (Hw vs Hvs)|]]].
  split; [apply no_docs_note_nonempty|split].
  - intro hw; unfold generate_response; simpl; rewrite Hplain; reflexivity.
  - unfold generate_response; simpl; rewrite (Hw (Some []) (or_intror eq_refl)).
    reflexivity.
Qed.

Lemma empty_index_ungrounded_answer_witness :
  reply (generate_response (fun _ _ => 0%Q) (Some []) true
           (fun _ p => match p with
                       | RagPrompt _ _ => Completed "rag"
                       | PlainPrompt _ => Completed "plain"
                       end) "q") = ("rag" ++ no_docs_note)%string.
Proof.
  exact (proj2 (proj2 (proj2 (proj2 (proj2
    (empty_index_ungrounded_answer (fun _ _ => 0%Q) (Some [])
       (fun _ p => match p with
                   | RagPrompt _ _ => Completed "rag"
                   | PlainPrompt _ => Completed "plain"
                   end) "q" "rag" "plain"
       (or_intror eq_refl) eq_refl eq_refl)))))).
Defined.

(** C9. When the chat model fails, [generate_response] returns the fixed
    apology of its path (no exception reaches the caller) and shows one
    [st.error] message; the reply only depends on the first call of the
    chat model, so nothing is retried. *)
Theorem generate_response_failure_apology similarity vs hw llm q e
  (Hfail : forall p, llm 0 p = Failed e) :
  generate_response similarity vs hw llm q =
    (if match vs with Some _ => hw | None => false end
     then mkReply apology_rag [("RAG 응답 생성 중 오류: " ++ e)%string]
     else mkReply apology_plain [("LLM 응답 생성 중 오류: " ++ e)%string]) /\
  (forall llm', (forall p, llm' 0 p = llm 0 p) ->
     generate_response similarity vs hw llm' q =
     generate_response similarity vs hw llm q).
Proof.
  split.
  - unfold generate_response, run_workflow, generate_answer.
    destruct vs as [docs|]; [destruct hw|]; simpl; rewrite Hfail; reflexivity.
  - intros llm' H.
    unfold generate_response, run_workflow, generate_answer.
    rewrite !H; reflexivity.
Qed.

Lemma generate_response_failure_apology_witness :
  reply (generate_response (fun _ _ => 0%Q) None false
           (fun _ _ => Failed "timeout") "q") = apology_plain.
Proof.
  rewrite (proj1 (generate_response_failure_apology (fun _ _ => 0%Q) None false
            (fun _ _ => Failed "timeout") "q" "timeout" (fun _ => eq_refl))).
  reflexivity.
Defined.

End PipelineFacts.

(** ** Facts about the query cache and the rolling window *)

Module SearchCacheFacts.
Import Rerank SearchCache.

(** Appending to a list of at most [S m] elements and dropping the head
    when it grows beyond [S m] keeps its last [S m] elements. *)
Lemma bounded_append {A} (l : list A) x m :
  List.length l <= S m ->
  (if Nat.ltb (S m) (List.length (l ++ [x])) then tl (l ++ [x]) else l ++ [x]) =
    skipn (List.length l - m) l ++ [x] /\
  List.length (skipn (List.length l - m) l ++ [x]) <= S m.
Proof.
  intro H; rewrite length_app; simpl.
  destruct (Nat.ltb (S m) (List.length l + 1)) eqn:E.
  - apply Nat.ltb_lt in E.
    destruct l as [|a l']; [simpl in E; lia|].
    replace (List.length (a :: l') - m) with 1 by (cbn [List.length] in *; lia); simpl.
    rewrite length_app; simpl; split; [reflexivity|cbn [List.length] in *; lia].
  - apply Nat.ltb_ge in E.
    replace (List.length l - m) with 0 by lia; simpl.
    rewrite length_app; simpl; split; [reflexivity|lia].
Qed.

Lemma cache_lookup_skipn key n c :
  cache_lookup key c = None -> cache_lookup key (skipn n c) = None.
Proof.
  revert c; induction n as [|n IH]; intros c H; [exact H|].
  destruct c as [|[k v] c]; simpl in *; [reflexivity|].
  destruct (String.eqb key k); [discriminate|auto].
Qed.

Lemma cache_lookup_last key r c :
  cache_lookup key c = None -> cache_lookup key (c ++ [(key, r)]) = Some r.
Proof.
  induction c as [|[k v] c IH]; simpl; intro H.
  - rewrite String.eqb_refl; reflexivity.
  - destruct (String.eqb key k); [discriminate|auto].
Qed.

(** C10 (counterexample). Six distinct queries and then the first one
    again: the repeated query is served from the cache and is not recorded
    in [recent_queries], which is not the five most recent queries. *)
Lemma search_hit_not_recent :
  let o := search_all PyStr.repr PyStr.lower (fun _ _ _ => Some []) init
             ["q1"; "q2"; "q3"; "q4"; "q5"; "q6"; "q1"] None 5 in
  recent_queries o = ["q2"; "q3"; "q4"; "q5"; "q6"] /\
  searches o = 6 /\
  List.length (query_cache o) = 6.
Proof. vm_compute; repeat split. Qed.

(** C10 (amended). Starting from a cache of at most 100 entries and a
    window of at most 5 queries, one call of [search] keeps both bounds.
    On a hit it returns the cached result and changes nothing: no search,
    and the query is not added to the window. On a miss it searches once,
    appends the query to the window and the new entry to the cache, and
    drops the oldest entry of each when it is over its bound. This holds
    for every rendering [repr] of the filter dict and every [lower]. *)
Theorem search_cache_window repr lower ss o q filters k
  (Hc : List.length (query_cache o) <= 100)
  (Hr : List.length (recent_queries o) <= 5) :
  let key := cache_key repr q filters k in
  let o' := fst (search repr lower ss o q filters k) in
  let r := snd (search repr lower ss o q filters k) in
  List.length (query_cache o') <= 100 /\
  List.length (recent_queries o') <= 5 /\
  (forall r0, cache_lookup key (query_cache o) = Some r0 -> o' = o /\ r = r0) /\
  (cache_lookup key (query_cache o) = None ->
     searches o' = S (searches o) /\
     cache_lookup key (query_cache o') = Some r /\
     query_cache o' =
       skipn (List.length (query_cache o) - 99) (query_cache o) ++ [(key, r)] /\
     recent_queries o' =
       skipn (List.length (recent_queries o) - 4) (recent_queries o) ++ [q]).
Proof.
  intros key o' r; subst o' r.
  unfold search; fold key.
  destruct (cache_lookup key (query_cache o)) as [r0|] eqn:E; simpl.
  - split; [exact Hc|split; [exact Hr|split]].
    + intros r1 H; injection H as <-; auto.
    + discriminate.
  - set (results := improved_vector_search_with lower ss q _ filters k).
    destruct (bounded_append (query_cache o) (key, results) 99 Hc) as [C1 C2].
    destruct (bounded_append (recent_queries o) q 4 Hr) as [R1 R2].
    rewrite C1, R1.
    split; [exact C2|split; [exact R2|split]].
    + intros r1 H; discriminate.
    + intros _; split; [reflexivity|split; [|split; reflexivity]].
      apply cache_lookup_last, cache_lookup_skipn, E.
Qed.

(** After the hundred queries ["q0"] to ["q99"] the cache is full and the
    window holds ["q95"] to ["q99"]. The miss on ["q100"] evicts the entry
    of ["q0"], the oldest, and drops ["q95"] from the window. *)
Lemma search_cache_window_witness :
  let ss := fun (_ : option string) (_ : nat) (_ : option Filters) =>
              Some ([] : list Document) in
  let o := search_all PyStr.repr PyStr.lower ss init (numbered_queries 100)
             None 5 in
  let o' := fst (search PyStr.repr PyStr.lower ss o "q100" None 5) in
  List.length (query_cache o) = 100 /\
  recent_queries o = ["q95"; "q96"; "q97"; "q98"; "q99"] /\
  cache_lookup (cache_key PyStr.repr "q0" None 5) (query_cache o) = Some [] /\
  cache_lookup (cache_key PyStr.repr "q100" None 5) (query_cache o) = None /\
  List.length (query_cache o') = 100 /\
  cache_lookup (cache_key PyStr.repr "q0" None 5) (query_cache o') = None /\
  cache_lookup (cache_key PyStr.repr "q1" None 5) (query_cache o') = Some [] /\
  cache_lookup (cache_key PyStr.repr "q100" None 5) (query_cache o') = Some [] /\
  recent_queries o' = ["q96"; "q97"; "q98"; "q99"; "q100"].
Proof.
  intros ss o o'.
  assert (Hc : List.length (query_cache o) = 100) by (vm_compute; reflexivity).
  assert (Hr : recent_queries o = ["q95"; "q96"; "q97"; "q98"; "q99"])
    by (vm_compute; reflexivity).
  assert (H0 : cache_lookup (cache_key PyStr.repr "q0" None 5) (query_cache o) = Some [])
    by (vm_compute; reflexivity).
  assert (Hm : cache_lookup (cache_key PyStr.repr "q100" None 5) (query_cache o) = None)
    by (vm_compute; reflexivity).
  assert (Hc' : List.length (query_cache o) <= 100) by lia.
  assert (Hr' : List.length (recent_queries o) <= 5) by (rewrite Hr; simpl; lia).
  destruct (search_cache_window PyStr.repr PyStr.lower ss o "q100" None 5 Hc' Hr')
    as (Lc & _ & _ & Miss).
  destruct (Miss Hm) as (_ & Hnew & Qc & Qr).
  fold o' in Lc, Hnew, Qc, Qr.
  assert (Hr0 : snd (search PyStr.repr PyStr.lower ss o "q100" None 5) = [])
    by (vm_compute; reflexivity).
  rewrite Hr0 in Hnew, Qc.
  split; [exact Hc|split; [exact Hr|split; [exact H0|split; [exact Hm|]]]].
  split; [|split; [|split; [|split; [exact Hnew|]]]].
  - rewrite Qc, length_app, length_skipn, Hc; reflexivity.
  - rewrite Qc; vm_compute; reflexivity.
  - rewrite Qc; vm_compute; reflexivity.
  - rewrite Qr, Hr; reflexivity.
Defined.

End SearchCacheFacts.

(** ** Facts about the document catalog, uploads and permissions *)

Module CatalogFacts.
Import Registry IndexStore Catalog RegistryFacts IndexFacts.

Lemma find_doc_set_active_other x y b r :
  y <> x -> find_doc y (set_active_first x b r) = find_doc y r.
Proof.
  intro Hne; induction r as [|d r IH]; simpl; [reflexivity|].
  destruct (Nat.eqb (doc_id d) x) eqn:E; simpl.
  - apply Nat.eqb_eq in E.
    replace (Nat.eqb (doc_id d) y) with false
      by (symmetry; apply Nat.eqb_neq; congruence); reflexivity.
  - destruct (Nat.eqb (doc_id d) y); auto.
Qed.

(** X1. [update_document_status(doc_id, is_active)] on a known id returns
    [True] and sets [is_active] of that row only; the row keeps every other
    field, no other lookup changes, and the uuid counter, version log and
    disk are untouched. On an unknown id it returns [False] and changes
    nothing. *)
Theorem update_document_status_effects st x b :
  match find_doc x (registry st) with
  | None => update_document_status st x b = (st, false)
  | Some d =>
      snd (update_document_status st x b) = true /\
      find_doc x (registry (fst (update_document_status st x b)))
        = Some (with_active d b) /\
      (forall y, y <> x ->
         find_doc y (registry (fst (update_document_status st x b)))
           = find_doc y (registry st)) /\
      map doc_id (registry (fst (update_document_status st x b)))
        = map doc_id (registry st) /\
      fresh (fst (update_document_status st x b)) = fresh st /\
      version_logs (fst (update_document_status st x b)) = version_logs st /\
      disk (fst (update_document_status st x b)) = disk st
  end.
Proof.
  unfold update_document_status.
  destruct (find_doc x (registry st)) as [d|] eqn:E; [|reflexivity].
  simpl; repeat split.
  - apply find_doc_set_active; exact E.
  - intros y Hy; apply find_doc_set_active_other; exact Hy.
  - apply set_active_first_ids.
Qed.

Lemma str_lt_trans a b c : str_lt a b -> str_lt b c -> str_lt a c.
Proof.
  unfold str_lt; change String.compare with String_as_OT.cmp.
  rewrite !String_as_OT.cmp_lt; apply String_as_OT.lt_trans.
Qed.

Lemma str_gt_lt a b : String.compare a b = Gt -> str_lt b a.
Proof.
  unfold str_lt; intro H; rewrite String.compare_antisym, H; reflexivity.
Qed.

Lemma str_lt_irrefl a : ~ str_lt a a.
Proof.
  unfold str_lt; change String.compare with String_as_OT.cmp.
  assert (H : String_as_OT.cmp a a = Eq) by (apply String_as_OT.cmp_eq; reflexivity).
  rewrite H; discriminate.
Qed.

Lemma insert_category_In c l y :
  In y (insert_category c l) <-> y = c \/ In y l.
Proof.
  induction l as [|c' l IH]; simpl; [intuition congruence|].
  destruct (String.compare c c') eqn:E; simpl.
  - apply String.compare_eq_iff in E; subst; intuition congruence.
  - intuition congruence.
  - rewrite IH; intuition congruence.
Qed.

Lemma insert_category_sorted c l :
  StronglySorted str_lt l -> StronglySorted str_lt (insert_category c l).
Proof.
  induction l as [|c' l IH]; simpl; intro H.
  - repeat constructor.
  - inversion H as [|? ? Hs Hf]; subst.
    destruct (String.compare c c') eqn:E.
    + exact H.
    + constructor; [exact H|].
      constructor; [exact E|].
      rewrite Forall_forall in Hf |- *; intros z Hz.
      exact (str_lt_trans _ _ _ E (Hf z Hz)).
    + constructor; [apply IH; exact Hs|].
      rewrite Forall_forall in Hf |- *; intros z Hz.
      apply insert_category_In in Hz as [->|Hz]; [apply str_gt_lt; exact E|].
      exact (Hf z Hz).
Qed.

Lemma sorted_nodup l : StronglySorted str_lt l -> NoDup l.
Proof.
  induction 1 as [|a l Hs IH Hf]; constructor; auto.
  intro Hin; rewrite Forall_forall in Hf; apply (str_lt_irrefl a), Hf, Hin.
Qed.

(** X2. [get_available_categories()] lists each category of an active row
    exactly once, in increasing order, and nothing else: the category of an
    inactive row only appears if an active row shares it. *)
Theorem get_available_categories_spec st :
  StronglySorted (fun a b => String.compare a b = Lt) (get_available_categories st) /\
  NoDup (get_available_categories st) /\
  (forall c, In c (get_available_categories st) <->
     exists d, In d (registry st) /\ is_active d = true /\ category d = c).
Proof.
  assert (Hs : StronglySorted str_lt (get_available_categories st)).
  { unfold get_available_categories.
    induction (map category (get_active_documents st)) as [|c l IH]; simpl.
    - constructor.
    - apply insert_category_sorted; exact IH. }
  split; [exact Hs|split; [apply sorted_nodup; exact Hs|]].
  intro c; unfold get_available_categories, get_active_documents.
  induction (registry st) as [|d r IH]; simpl.
  - split; [tauto|intros (d & [] & _)].
  - destruct (is_active d) eqn:A; simpl.
    + rewrite insert_category_In, IH; split.
      * intros [Hc|(d' & H1 & H2 & H3)]; [exists d; auto|exists d'; auto].
      * intros (d' & [<-|H1] & H2 & H3); [left; auto|right; exists d'; auto].
    + rewrite IH; split.
      * intros (d' & H1 & H2 & H3); exists d'; auto.
      * intros (d' & [<-|H1] & H2 & H3); [congruence|exists d'; auto].
Qed.

Lemma split_sep_length c s : 1 <= List.length (split_sep c s).
Proof.
  induction s as [|a s IH]; simpl; [lia|].
  destruct (Ascii.eqb a c); simpl; [lia|].
  destruct (split_sep c s); simpl in *; lia.
Qed.

Lemma split_sep_cons_length c a s :
  List.length (split_sep c s) <= List.length (split_sep c (String a s)).
Proof.
  simpl; destruct (Ascii.eqb a c); simpl; [lia|].
  destruct (split_sep c s); simpl; lia.
Qed.

Lemma split_sep_app_length c base ext :
  2 <= List.length (split_sep c (base ++ String c ext)).
Proof.
  induction base as [|a base IH]; simpl.
  - rewrite Ascii.eqb_refl; simpl; pose proof (split_sep_length c ext); lia.
  - destruct (Ascii.eqb a c); simpl; [lia|].
    destruct (split_sep c (base ++ String c ext)); simpl in *; lia.
Qed.

Lemma last_cons_nonempty {A} (x : A) l d : l <> [] -> last (x :: l) d = last l d.
Proof. destruct l; [congruence|reflexivity]. Qed.

Lemma split_sep_last c base ext d :
  last (split_sep c (base ++ String c ext)) d = last (split_sep c ext) d.
Proof.
  induction base as [|a base IH]; simpl.
  - rewrite Ascii.eqb_refl, last_cons_nonempty; [reflexivity|].
    pose proof (split_sep_length c ext); destruct (split_sep c ext); simpl in *;
      [lia|discriminate].
  - pose proof (split_sep_app_length c base ext) as Hl.
    destruct (Ascii.eqb a c).
    + rewrite last_cons_nonempty; [exact IH|].
      destruct (split_sep c (base ++ String c ext)); simpl in *; [lia|discriminate].
    + destruct (split_sep c (base ++ String c ext)) as [|w ws]; simpl in *; [lia|].
      destruct ws as [|w' ws]; simpl in *; [lia|exact IH].
Qed.

Lemma split_sep_no_sep c s :
  ~ In c (list_ascii_of_string s) -> split_sep c s = [s].
Proof.
  induction s as [|a s IH]; simpl; intro H; [reflexivity|].
  destruct (Ascii.eqb a c) eqn:E.
  - apply Ascii.eqb_eq in E; subst; tauto.
  - rewrite IH by tauto; reflexivity.
Qed.

(** X3. The file type that selects the loader is the text after the last
    dot of the file name, lower-cased (the whole name when it has no dot);
    [get_loader] accepts exactly the types [pdf], [docx], [csv] and [pptx],
    so an upload is accepted whatever the case of its extension and
    whatever dots its base name contains. *)
Theorem file_type_after_last_dot base ext
  (Hext : ~ In "."%char (list_ascii_of_string ext)) :
  file_type_of (base ++ String "." ext) = PyStr.lower ext /\
  file_type_of ext = PyStr.lower ext /\
  (get_loader (file_type_of (base ++ String "." ext)) <> None <->
   In (PyStr.lower ext) ["pdf"; "docx"; "csv"; "pptx"]).
Proof.
  assert (H1 : file_type_of (base ++ String "." ext) = PyStr.lower ext).
  { unfold file_type_of; rewrite split_sep_last, split_sep_no_sep by exact Hext.
    reflexivity. }
  split; [exact H1|split].
  - unfold file_type_of; rewrite split_sep_no_sep by exact Hext; reflexivity.
  - rewrite H1; unfold get_loader; simpl.
    destruct (String.eqb (PyStr.lower ext) "pdf") eqn:E1;
      [apply String.eqb_eq in E1; rewrite E1; split; [auto|discriminate]|].
    destruct (String.eqb (PyStr.lower ext) "docx") eqn:E2;
      [apply String.eqb_eq in E2; rewrite E2; split; [auto|discriminate]|].
    destruct (String.eqb (PyStr.lower ext) "csv") eqn:E3;
      [apply String.eqb_eq in E3; rewrite E3; split; [auto|discriminate]|].
    destruct (String.eqb (PyStr.lower ext) "pptx") eqn:E4;
      [apply String.eqb_eq in E4; rewrite E4; split; [auto|discriminate]|].
    apply String.eqb_neq in E1, E2, E3, E4.
    split; [intro H; contradiction H; reflexivity|].
    intros [H|[H|[H|[H|[]]]]]; congruence.
Qed.

Lemma file_type_after_last_dot_witness :
  ~ In "."%char (list_ascii_of_string "PDF") /\
  file_type_of ("annual.report.2024" ++ String "." "PDF") = "pdf".
Proof.
  assert (H : ~ In "."%char (list_ascii_of_string "PDF")) by (simpl; intuition discriminate).
  split; [exact H|].
  exact (proj1 (file_type_after_last_dot "annual.report.2024" "PDF" H)).
Defined.

Lemma find_permission_app_none u c ps q :
  find_permission u c ps = None ->
  find_permission u c (ps ++ [q]) =
    if String.eqb (perm_username q) u && String.eqb (perm_category q) c
    then Some q else None.
Proof.
  induction ps as [|p ps IH]; simpl; intro H; [reflexivity|].
  destruct (String.eqb (perm_username p) u && String.eqb (perm_category p) c);
    [discriminate|auto].
Qed.

Lemma find_permission_app_other u c ps q :
  (String.eqb (perm_username q) u && String.eqb (perm_category q) c) = false ->
  find_permission u c (ps ++ [q]) = find_permission u c ps.
Proof.
  intro Hq; induction ps as [|p ps IH]; simpl; [rewrite Hq; reflexivity|].
  rewrite IH; reflexivity.
Qed.

(** X4. On a healthy session, granting [(username, category)] to a known
    user that has no grant for that category yet succeeds; afterwards
    [check_document_permission] answers the granted [can_view] for ["view"],
    the granted [can_upload] for ["upload"], [False] for any other
    permission type, and unchanged for every other (user, category) pair. *)
Theorem add_category_permission_roundtrip s u c v up
  (Hok : pending_rollback s = false)
  (Hu : In u (users s))
  (Hnone : find_permission u c (permissions s) = None) :
  let '(db', ok) := add_category_permission (Some s) u c v up in
  ok = true /\
  check_document_permission db' u c "view" = v /\
  check_document_permission db' u c "upload" = up /\
  (forall t, t <> "view" -> t <> "upload" ->
     check_document_permission db' u c t = false) /\
  (forall u' c' t, (u' <> u \/ c' <> c) ->
     check_document_permission db' u' c' t =
     check_document_permission (Some s) u' c' t).
Proof.
  unfold add_category_permission; rewrite Hok.
  assert (He : existsb (String.eqb u) (users s) = true)
    by (apply existsb_exists; exists u; split; [exact Hu|apply String.eqb_refl]).
  rewrite He.
  unfold check_document_permission; cbn [pending_rollback permissions].
  rewrite Hok, (find_permission_app_none _ _ _ _ Hnone); cbn [perm_username perm_category].
  rewrite !String.eqb_refl; cbn [andb can_view can_upload].
  repeat split.
  - intros t H1 H2.
    apply String.eqb_neq in H1, H2; rewrite H1, H2; reflexivity.
  - intros u' c' t Hne.
    rewrite find_permission_app_other; [reflexivity|].
    cbn [perm_username perm_category].
    destruct Hne as [Hne|Hne];
      [rewrite (proj2 (String.eqb_neq u u')) by congruence; reflexivity|].
    rewrite (proj2 (String.eqb_neq c c')) by congruence; apply andb_false_r.
Qed.

Lemma add_category_permission_roundtrip_witness :
  let s := mkPermDB ["alice"; "bob"] [mkPerm "bob" "HR" true false] false in
  (pending_rollback s = false /\ In "alice" (users s) /\
   find_permission "alice" "HR" (permissions s) = None) /\
  check_document_permission
    (fst (add_category_permission (Some s) "alice" "HR" true true))
    "alice" "HR" "upload" = true.
Proof.
  intro s.
  assert (H1 : pending_rollback s = false) by reflexivity.
  assert (H2 : In "alice" (users s)) by (simpl; auto).
  assert (H3 : find_permission "alice" "HR" (permissions s) = None) by reflexivity.
  split; [auto|].
  pose proof (add_category_permission_roundtrip s "alice" "HR" true true H1 H2 H3) as H.
  destruct (add_category_permission (Some s) "alice" "HR" true true) as [db' ok].
  exact (proj1 (proj2 (proj2 H))).
Defined.

(** X5. Granting a permission to a user that is not in [users] fails its
    [commit()] on the foreign keys; [add_category_permission] returns
    [False] without rolling back, so the session is left waiting for a
    rollback: from then on every [check_document_permission] returns
    [False], even for grants that exist, and every further grant fails. *)
Theorem add_category_permission_unknown_user s u c v up
  (Hok : pending_rollback s = false)
  (Hu : ~ In u (users s)) :
  let '(db', ok) := add_category_permission (Some s) u c v up in
  ok = false /\
  (forall u' c' t, check_document_permission db' u' c' t = false) /\
  (forall u' c' v' up', add_category_permission db' u' c' v' up' = (db', false)).
Proof.
  unfold add_category_permission at 1; rewrite Hok.
  assert (He : existsb (String.eqb u) (users s) = false).
  { destruct (existsb (String.eqb u) (users s)) eqn:E; [|reflexivity].
    apply existsb_exists in E as (x & Hx & Ex).
    apply String.eqb_eq in Ex; subst; contradiction. }
  rewrite He; repeat split.
Qed.

Lemma add_category_permission_unknown_user_witness :
  let s := mkPermDB ["alice"] [mkPerm "alice" "HR" true false] false in
  (pending_rollback s = false /\ ~ In "mallory" (users s)) /\
  check_document_permission
    (fst (add_category_permission (Some s) "mallory" "HR" true false))
    "alice" "HR" "view" = false.
Proof.
  intro s.
  assert (H1 : pending_rollback s = false) by reflexivity.
  assert (H2 : ~ In "mallory" (users s)) by (simpl; intuition discriminate).
  split; [auto|].
  pose proof (add_category_permission_unknown_user s "mallory" "HR" true false H1 H2) as H.
  destruct (add_category_permission (Some s) "mallory" "HR" true false) as [db' ok].
  exact (proj1 (proj2 H) "alice" "HR" "view").
Defined.

End CatalogFacts.

(** ** Indexing, batching and the session cache of [performance_optimizer.py] *)

Module OptimizerFacts.
Import Rerank Optimizer PyDict.

Lemma get_set {V} k k' (v : V) d :
  get k (set k' v d) = if String.eqb k k' then Some v else get k d.
Proof.
  induction d as [|[k0 v0] d IH]; simpl.
  - destruct (String.eqb k k'); reflexivity.
  - destruct (String.eqb_spec k' k0) as [->|Hne]; simpl.
    + destruct (String.eqb k k0); reflexivity.
    + rewrite IH. destruct (String.eqb_spec k k0) as [->|]; [|reflexivity].
      rewrite (proj2 (String.eqb_neq k0 k')) by congruence; reflexivity.
Qed.

Lemma get_append_to {V} k k' (v : V) d :
  get k (append_to k' v d) =
  if String.eqb k k' then extend (get k d) [v] else get k d.
Proof.
  unfold append_to.
  destruct (String.eqb_spec k k') as [->|Hne].
  - destruct (get k' d) eqn:E; rewrite get_set, String.eqb_refl; reflexivity.
  - destruct (get k' d); rewrite get_set, (proj2 (String.eqb_neq k k') Hne);
      reflexivity.
Qed.

Lemma extend_app {V} (o : option (list V)) l1 l2 :
  extend (extend o l1) l2 = extend o (l1 ++ l2).
Proof.
  destruct o as [a|], l1 as [|x l1], l2 as [|y l2]; simpl;
    rewrite ?app_nil_r; try reflexivity.
  rewrite <- app_assoc; reflexivity.
Qed.

Lemma extend_nil {V} (o : option (list V)) : extend o [] = o.
Proof. destruct o; simpl; rewrite ?app_nil_r; reflexivity. Qed.

Lemma get_append_fold k (key : Document -> string) (docs : list Document)
  (d : list (string * list Document)) :
  get k (fold_left (fun m doc => append_to (key doc) doc m) docs d) =
  extend (get k d) (filter (fun doc => String.eqb (key doc) k) docs).
Proof.
  revert d; induction docs as [|doc docs IH]; intro d; simpl.
  - rewrite extend_nil; reflexivity.
  - rewrite IH, get_append_to.
    destruct (String.eqb_spec k (key doc)) as [->|Hne].
    + rewrite String.eqb_refl, extend_app; reflexivity.
    + rewrite (proj2 (String.eqb_neq (key doc) k)) by congruence; reflexivity.
Qed.

Lemma index_fold_category lower docs idx :
  by_category (fold_left (index_step lower) docs idx) =
  fold_left (fun m doc => append_to (index_category doc) doc m) docs
    (by_category idx).
Proof.
  revert idx; induction docs as [|doc docs IH]; intro idx; simpl; [reflexivity|].
  rewrite IH; reflexivity.
Qed.

Lemma index_fold_filename lower docs idx :
  by_filename (fold_left (index_step lower) docs idx) =
  fold_left (fun m doc => append_to (index_filename doc) doc m) docs
    (by_filename idx).
Proof.
  revert idx; induction docs as [|doc docs IH]; intro idx; simpl; [reflexivity|].
  rewrite IH; reflexivity.
Qed.

Lemma index_fold_id lower docs idx :
  by_id (fold_left (index_step lower) docs idx) =
  fold_left (fun m doc => set (index_doc_id doc) doc m) docs (by_id idx).
Proof.
  revert idx; induction docs as [|doc docs IH]; intro idx; simpl; [reflexivity|].
  rewrite IH; reflexivity.
Qed.

Lemma last_map_some {A} (l : list A) : last (map Some l) None = None -> l = [].
Proof.
  induction l as [|a l IH]; simpl; intro H; [reflexivity|].
  destruct l as [|b l]; [discriminate|].
  specialize (IH H); discriminate.
Qed.

Lemma get_set_fold k docs (d : list (string * Document)) :
  get k (fold_left (fun m doc => set (index_doc_id doc) doc m) docs d) =
  match last (map Some (filter (fun doc => String.eqb (index_doc_id doc) k) docs))
             None with
  | Some doc => Some doc
  | None => get k d
  end.
Proof.
  revert d; induction docs as [|doc docs IH]; intro d; simpl; [reflexivity|].
  rewrite IH, get_set.
  destruct (String.eqb_spec k (index_doc_id doc)) as [->|Hne].
  - rewrite String.eqb_refl; simpl.
    destruct (filter _ docs) as [|x F]; [reflexivity|].
    change (last (Some doc :: map Some (x :: F)) None)
      with (last (map Some (x :: F)) None).
    destruct (last (map Some (x :: F)) None) eqn:L; [reflexivity|].
    apply last_map_some in L; discriminate.
  - rewrite (proj2 (String.eqb_neq (index_doc_id doc) k)) by congruence;
      reflexivity.
Qed.

(** X6. In the index built by [create_document_index], [by_category] maps
    a category to the documents of that category in input order and
    [by_filename] a file name to the documents of that file, each key
    present exactly when some document has it; [by_id] maps an id to the
    last document carrying it (a later document with the same id replaces
    an earlier one). *)
Theorem create_document_index_groups docs c f i :
  get c (by_category (create_document_index docs)) =
    match filter (fun d => String.eqb (index_category d) c) docs with
    | [] => None
    | l => Some l
    end /\
  get f (by_filename (create_document_index docs)) =
    match filter (fun d => String.eqb (index_filename d) f) docs with
    | [] => None
    | l => Some l
    end /\
  get i (by_id (create_document_index docs)) =
    last (map Some (filter (fun d => String.eqb (index_doc_id d) i) docs)) None.
Proof.
  unfold create_document_index, create_document_index_with.
  rewrite index_fold_category, index_fold_filename, index_fold_id,
    !get_append_fold, get_set_fold; cbn [by_category by_filename by_id get].
  split; [|split].
  - destruct (filter _ docs); reflexivity.
  - destruct (filter _ docs); reflexivity.
  - destruct (last _ None); reflexivity.
Qed.

Lemma filter_filter_and {A} (p q : A -> bool) l :
  filter p (filter q l) = filter (fun x => q x && p x) l.
Proof.
  induction l as [|x l IH]; simpl; [reflexivity|].
  destruct (q x); simpl; [destruct (p x); simpl|]; rewrite ?IH; reflexivity.
Qed.

Lemma filter_eqb_dedup w l :
  filter (String.eqb w) (dedup l) =
  if existsb (String.eqb w) l then [w] else [].
Proof.
  induction l as [|x l IH]; simpl; [reflexivity|].
  rewrite filter_filter_and.
  destruct (String.eqb_spec w x) as [->|Hne]; simpl.
  - f_equal. rewrite (filter_ext _ (fun _ => false)), filter_false; [reflexivity|].
    intro y; destruct (String.eqb_spec y x) as [->|]; simpl;
      [reflexivity|apply String.eqb_neq; congruence].
  - rewrite <- IH.
    rewrite (filter_ext _ (String.eqb w)); [reflexivity|].
    intro y; destruct (String.eqb_spec w y) as [->|];
      [rewrite (proj2 (String.eqb_neq y x)) by congruence; reflexivity
      |apply andb_false_r].
Qed.

Lemma get_append_words k x ws (m : list (string * list string)) :
  get k (fold_left (fun m w => append_to w x m) ws m) =
  extend (get k m) (map (fun _ => x) (filter (String.eqb k) ws)).
Proof.
  revert m; induction ws as [|w ws IH]; intro m; simpl.
  - rewrite extend_nil; reflexivity.
  - rewrite IH, get_append_to.
    destruct (String.eqb k w); simpl; [rewrite extend_app|]; reflexivity.
Qed.

Lemma index_fold_content lower w docs idx :
  get w (by_content (fold_left (index_step lower) docs idx)) =
  extend (get w (by_content idx))
    (map index_doc_id
       (filter (fun d => existsb (String.eqb w)
                  (filter (fun x => Nat.ltb 4 (PyStr.len x))
                     (PyStr.split (lower (page_content d))))) docs)).
Proof.
  revert idx; induction docs as [|doc docs IH]; intro idx; simpl.
  - rewrite extend_nil; reflexivity.
  - rewrite IH; cbn [by_content index_step].
    rewrite get_append_words; unfold index_words; rewrite filter_eqb_dedup.
    destruct (existsb _ _); simpl; rewrite ?extend_app; reflexivity.
Qed.

(** X7. In the index built by [create_document_index], [by_content] maps
    a word [w] to the ids of the documents whose lower-cased content has
    [w] among its words, split at Unicode whitespace as [str.split()]
    does, when [w] is longer than four characters, in input order and once
    per document, and has no entry for a word of at most four characters.
    This holds for every lowering function [lower]. *)
Theorem create_document_index_content lower docs w :
  get w (by_content (create_document_index_with lower docs)) =
    match filter (fun d => Nat.ltb 4 (PyStr.len w) &&
                    existsb (String.eqb w) (PyStr.split (lower (page_content d))))
            docs with
    | [] => None
    | l => Some (map index_doc_id l)
    end.
Proof.
  unfold create_document_index_with; rewrite index_fold_content;
    cbn [by_content get].
  rewrite (filter_ext _ (fun d => Nat.ltb 4 (PyStr.len w) &&
             existsb (String.eqb w) (PyStr.split (lower (page_content d))))).
  - destruct (filter _ docs); reflexivity.
  - intro d; generalize (PyStr.split (lower (page_content d))) as ws.
    induction ws as [|x ws IH]; simpl; [symmetry; apply andb_false_r|].
    destruct (Nat.ltb 4 (PyStr.len x)) eqn:L; simpl;
      destruct (String.eqb_spec w x) as [->|Hne]; simpl;
      rewrite ?IH, ?L; simpl; reflexivity.
Qed.

Lemma batches_fold {A B} (docs : list A) (f : A -> B) k fuel i acc :
  0 < k -> List.length docs - i <= fuel * k ->
  fold_left (fun results batch => results ++ map f batch)
    (map (fun j => slice docs j (j + k)) (range_from fuel i k (List.length docs)))
    acc = acc ++ map f (skipn i docs).
Proof.
  intro Hk; revert i acc; induction fuel as [|fuel IH]; intros i acc Hf; simpl.
  - rewrite skipn_all2 by lia; simpl; rewrite app_nil_r; reflexivity.
  - destruct (Nat.ltb_spec i (List.length docs)) as [Hi|Hi]; simpl.
    + rewrite IH by lia. rewrite <- app_assoc, <- map_app; f_equal; f_equal.
      unfold slice; replace (i + k - i) with k by lia.
      rewrite Nat.add_comm, <- skipn_skipn, firstn_skipn; reflexivity.
    + rewrite skipn_all2 by lia; simpl; rewrite app_nil_r; reflexivity.
Qed.

(** X8. [parallel_document_processing] returns [process_func] applied to
    every document, in document order, whenever [batch_size] is positive,
    whatever the batch size; a zero batch size raises the [ValueError] of
    [range], and a negative one returns an empty list without processing
    any document. *)
Theorem parallel_document_processing_map {A B} (documents : list A)
  (process_func : A -> B) (batch_size : Z) :
  parallel_document_processing documents process_func batch_size =
    if Z.eqb batch_size 0
    then Pipeline.Raised "ValueError: range() arg 3 must not be zero"
    else if Z.ltb 0 batch_size then Pipeline.Ok (map process_func documents)
    else Pipeline.Ok [].
Proof.
  unfold parallel_document_processing, py_range0.
  destruct (Z.eqb_spec batch_size 0) as [->|H0]; [reflexivity|].
  destruct (Z.ltb_spec 0 batch_size) as [Hp|Hn]; [|reflexivity].
  rewrite batches_fold by nia; reflexivity.
Qed.

Lemma filter_true_in {A} (p : A -> bool) l :
  (forall x, In x l -> p x = true) -> filter p l = l.
Proof.
  induction l as [|x l IH]; simpl; intro H; [reflexivity|].
  rewrite H by auto; f_equal; auto.
Qed.

Lemma del_filter {V} k (s : list (string * V)) :
  NoDup (map fst s) -> del k s = filter (fun kv => negb (String.eqb (fst kv) k)) s.
Proof.
  induction s as [|[k0 v0] s IH]; simpl; intro Hnd; [reflexivity|].
  inversion Hnd as [|? ? Hnin Hnd']; subst.
  destruct (String.eqb_spec k k0) as [->|Hne]; simpl.
  - rewrite String.eqb_refl; simpl.
    symmetry; apply filter_true_in; intros [k1 v1] Hin; simpl.
    destruct (String.eqb_spec k1 k0) as [->|]; [|reflexivity].
    exfalso; apply Hnin; apply in_map_iff; exists (k0, v1); auto.
  - rewrite (proj2 (String.eqb_neq k0 k)) by congruence; simpl; f_equal; auto.
Qed.

Lemma nodup_filter_keys {V} p (s : list (string * V)) :
  NoDup (map fst s) -> NoDup (map fst (filter p s)).
Proof.
  induction s as [|[k v] s IH]; simpl; intro Hnd; [constructor|].
  inversion Hnd as [|? ? Hnin Hnd']; subst.
  destruct (p (k, v)); simpl; [|auto].
  constructor; [|auto].
  intro Hin; apply in_map_iff in Hin as ([k' v'] & Hk & Hin'); simpl in Hk.
  apply filter_In in Hin' as [Hin' _].
  apply Hnin, in_map_iff; exists (k', v'); split; [exact Hk|exact Hin'].
Qed.

Lemma clear_fold {V} ks (s : list (string * V)) :
  NoDup (map fst s) ->
  fold_left (fun s key => if cache_entry key then del key s else s) ks s =
  filter (fun kv => negb (cache_entry (fst kv) && existsb (String.eqb (fst kv)) ks)) s.
Proof.
  revert s; induction ks as [|k ks IH]; intros s Hnd; simpl.
  - symmetry; apply filter_true_in; intros; rewrite andb_false_r; reflexivity.
  - destruct (cache_entry k) eqn:Ek.
    + rewrite IH by (rewrite del_filter by exact Hnd; apply nodup_filter_keys; exact Hnd).
      rewrite del_filter by exact Hnd; rewrite filter_filter_and.
      apply filter_ext; intros [k' v']; simpl.
      destruct (String.eqb_spec k' k) as [->|]; simpl.
      * rewrite Ek; reflexivity.
      * reflexivity.
    + rewrite IH by exact Hnd; apply filter_ext; intros [k' v']; simpl.
      destruct (String.eqb_spec k' k) as [->|]; simpl; [rewrite Ek|]; reflexivity.
Qed.

Lemma get_none_filter {V} k (s : list (string * V)) :
  get k s = None -> filter (fun kv => negb (String.eqb (fst kv) k)) s = s.
Proof.
  induction s as [|[k0 v0] s IH]; simpl; intro H; [reflexivity|].
  destruct (String.eqb_spec k k0) as [->|Hne]; [discriminate|].
  rewrite (proj2 (String.eqb_neq k0 k)) by congruence; simpl; f_equal; auto.
Qed.

(** On a session state without repeated keys, [clear_cache] keeps the
    entries of the other keys. *)
Lemma clear_cache_filter {V} (session : list (string * V))
  (Hkeys : NoDup (map fst session)) :
  clear_cache session =
  filter (fun kv => negb (cache_entry (fst kv) || String.eqb (fst kv) "large_data"))
    session.
Proof.
  unfold clear_cache.
  rewrite clear_fold by exact Hkeys.
  rewrite (filter_ext_in _ (fun kv => negb (cache_entry (fst kv)))).
  2: { intros [k v] Hin; simpl.
       assert (He : existsb (String.eqb k) (map fst session) = true).
       { apply existsb_exists; exists k; split; [|apply String.eqb_refl].
         apply in_map_iff; exists (k, v); auto. }
       rewrite He, andb_true_r; reflexivity. }
  destruct (get "large_data" _) as [ld|] eqn:E.
  - rewrite del_filter by (apply nodup_filter_keys; exact Hkeys).
    rewrite filter_filter_and; apply filter_ext; intros [k v]; simpl.
    destruct (cache_entry k); reflexivity.
  - rewrite <- (get_none_filter _ _ E), filter_filter_and.
    apply filter_ext; intros [k v]; simpl.
    destruct (cache_entry k); reflexivity.
Qed.

Lemma get_filter_key {V} (q : string -> bool) k (s : list (string * V)) :
  get k (filter (fun kv => negb (q (fst kv))) s) = if q k then None else get k s.
Proof.
  induction s as [|[k0 v0] s IH]; simpl; [destruct (q k); reflexivity|].
  destruct (String.eqb_spec k k0) as [E|Hne]; [subst k0|].
  - destruct (q k) eqn:Q0; simpl; [rewrite IH; try rewrite Q0; reflexivity|].
    rewrite String.eqb_refl; reflexivity.
  - destruct (q k0); simpl; [exact IH|].
    rewrite (proj2 (String.eqb_neq k k0) Hne); exact IH.
Qed.

(** X9. On a session state without repeated keys, after [clear_cache] the
    keys that start with ["_cache_"] or end with ["_cache"], and the key
    ["large_data"], have no entry; every other key has the entry it had
    before, with its value; no key is repeated. *)
Theorem clear_cache_removes {V} (session : list (string * V))
  (Hkeys : NoDup (map fst session)) :
  NoDup (map fst (clear_cache session)) /\
  (forall k, get k (clear_cache session) =
     if cache_entry k || String.eqb k "large_data" then None else get k session).
Proof.
  rewrite (clear_cache_filter session Hkeys); split.
  - apply nodup_filter_keys; exact Hkeys.
  - intro k; apply (get_filter_key (fun k => cache_entry k || String.eqb k "large_data")).
Qed.

Lemma clear_cache_removes_witness :
  NoDup (map fst [("_cache_q", 1); ("keep", 2); ("large_data", 3); ("hits_cache", 4)]) /\
  get "keep" (clear_cache [("_cache_q", 1); ("keep", 2); ("large_data", 3);
                           ("hits_cache", 4)]) = Some 2 /\
  get "large_data" (clear_cache [("_cache_q", 1); ("keep", 2); ("large_data", 3);
                                 ("hits_cache", 4)]) = None /\
  get "hits_cache" (clear_cache [("_cache_q", 1); ("keep", 2); ("large_data", 3);
                                 ("hits_cache", 4)]) = None.
Proof.
  assert (H : NoDup (map fst [("_cache_q", 1); ("keep", 2); ("large_data", 3);
                              ("hits_cache", 4)])).
  { simpl; repeat constructor; simpl; intuition discriminate. }
  destruct (clear_cache_removes _ H) as [_ G].
  split; [exact H|].
  rewrite !G; split; [reflexivity|split; reflexivity].
Defined.

End OptimizerFacts.

(** ** Retrieval and the composed workflow of [rag_utils.py] *)

Module WorkflowFacts.
Import Pipeline.

Lemma strongly_sorted_app_l {A} (R : A -> A -> Prop) l1 l2 :
  StronglySorted R (l1 ++ l2) -> StronglySorted R l1.
Proof.
  induction l1 as [|x l1 IH]; simpl; intro H; [constructor|].
  apply StronglySorted_inv in H as [H1 H2].
  constructor; [auto|].
  rewrite Forall_forall in *; intros y Hy; apply H2, in_or_app; auto.
Qed.

Lemma strongly_sorted_app_between {A} (R : A -> A -> Prop) l1 l2 x y :
  StronglySorted R (l1 ++ l2) -> In x l1 -> In y l2 -> R x y.
Proof.
  induction l1 as [|z l1 IH]; simpl; intros H Hx Hy; [contradiction|].
  apply StronglySorted_inv in H as [H1 H2].
  destruct Hx as [<-|Hx]; [|auto].
  rewrite Forall_forall in H2; apply H2, in_or_app; auto.
Qed.

Lemma strongly_sorted_map {A B} (R : A -> A -> Prop) (R' : B -> B -> Prop)
  (f : A -> B) l :
  (forall x y, In x l -> In y l -> R x y -> R' (f x) (f y)) ->
  StronglySorted R l -> StronglySorted R' (map f l).
Proof.
  induction l as [|x l IH]; simpl; intros Hf H; [constructor|].
  apply StronglySorted_inv in H as [H1 H2].
  constructor; [apply IH; auto|].
  rewrite Forall_forall in *; intros y Hy.
  apply in_map_iff in Hy as (z & <- & Hz); apply Hf; auto.
Qed.

Lemma similarity_insert_perm {A} (x : A * Q) l :
  Permutation (similarity_insert x l) (x :: l).
Proof.
  induction l as [|y l IH]; simpl; [auto|].
  destruct (Qle_bool (snd y) (snd x)); [auto|].
  eapply perm_trans; [apply perm_skip, IH|apply perm_swap].
Qed.

Lemma similarity_sort_perm {A} (l : list (A * Q)) : Permutation (similarity_sort l) l.
Proof.
  induction l as [|x l IH]; simpl; [auto|].
  eapply perm_trans; [apply similarity_insert_perm|auto].
Qed.

Lemma similarity_insert_hd {A} (x y : A * Q) l :
  HdRel similarity_before y l -> similarity_before y x ->
  HdRel similarity_before y (similarity_insert x l).
Proof.
  destruct l as [|z l]; simpl; intros H Hyx; [constructor; auto|].
  destruct (Qle_bool (snd z) (snd x)); constructor; auto.
  inversion H; auto.
Qed.

Lemma similarity_insert_sorted {A} (x : A * Q) l :
  Sorted similarity_before l -> Sorted similarity_before (similarity_insert x l).
Proof.
  induction l as [|y l IH]; simpl; intro H.
  - constructor; constructor.
  - destruct (Qle_bool (snd y) (snd x)) eqn:E.
    + constructor; [exact H|constructor].
      apply Qle_bool_iff in E; exact E.
    + apply Sorted_inv in H as [Hl Hy].
      constructor; [apply IH; exact Hl|].
      apply similarity_insert_hd; auto.
      unfold similarity_before; apply Qlt_le_weak, Qnot_le_lt.
      intro C; apply Qle_bool_iff in C; congruence.
Qed.

Lemma similarity_sort_sorted {A} (l : list (A * Q)) :
  Sorted similarity_before (similarity_sort l).
Proof.
  induction l as [|x l IH]; simpl; [constructor|].
  apply similarity_insert_sorted; exact IH.
Qed.

(** X10. With a vector store, [retrieve_documents] keeps the question,
    answer and [need_more_info] and puts into [context] and [sources] the
    texts and sources of [min 5 n] of the [n] stored documents, in
    decreasing similarity to the question; no document left out is more
    similar to the question than a retrieved one. *)
Theorem retrieve_documents_top5 similarity docs st :
  let st' := retrieve_documents similarity (Some docs) st in
  exists ds rest,
    context st' = map rd_content ds /\
    sources st' = map to_source ds /\
    List.length ds = Nat.min 5 (List.length docs) /\
    Permutation (ds ++ rest) docs /\
    StronglySorted (fun a b => (similarity (question st) b <= similarity (question st) a)%Q) ds /\
    (forall d d', In d ds -> In d' rest ->
       (similarity (question st) d' <= similarity (question st) d)%Q) /\
    question st' = question st /\ answer st' = answer st /\
    need_more_info st' = need_more_info st.
Proof.
  intro st'; subst st'.
  set (q := question st).
  set (L := map (fun d => (d, similarity q d)) docs).
  set (R := similarity_sort L).
  assert (HP : Permutation R L) by apply similarity_sort_perm.
  assert (Hsnd : forall p, In p R -> snd p = similarity q (fst p)).
  { intros p Hp; apply (Permutation_in _ HP) in Hp.
    apply in_map_iff in Hp as (d & <- & _); reflexivity. }
  assert (HS : StronglySorted similarity_before R).
  { apply Sorted_StronglySorted; [|apply similarity_sort_sorted].
    intros x y z H1 H2; unfold similarity_before in *; eapply Qle_trans; eauto. }
  rewrite <- (firstn_skipn 5 R) in HS.
  exists (map fst (firstn 5 R)), (map fst (skipn 5 R)).
  split; [reflexivity|split; [reflexivity|split; [|split; [|split; [|split]]]]].
  - rewrite length_map, length_firstn, (Permutation_length HP).
    unfold L; rewrite length_map; reflexivity.
  - rewrite <- map_app, firstn_skipn.
    transitivity (map fst L); [apply Permutation_map; exact HP|].
    unfold L; rewrite map_map, map_id; reflexivity.
  - apply (strongly_sorted_map similarity_before); [|eapply strongly_sorted_app_l; exact HS].
    intros x y Hx Hy Hxy; unfold similarity_before in Hxy.
    rewrite !Hsnd in Hxy
      by (rewrite <- (firstn_skipn 5 R); apply in_or_app; left; assumption).
    exact Hxy.
  - intros d d' Hd Hd'.
    apply in_map_iff in Hd as (x & <- & Hx).
    apply in_map_iff in Hd' as (y & <- & Hy).
    pose proof (strongly_sorted_app_between _ _ _ x y HS Hx Hy) as Hxy.
    unfold similarity_before in Hxy.
    rewrite (Hsnd x), (Hsnd y) in Hxy; [exact Hxy| |].
    + rewrite <- (firstn_skipn 5 R); apply in_or_app; auto.
    + rewrite <- (firstn_skipn 5 R); apply in_or_app; auto.
  - repeat split.
Qed.

End WorkflowFacts.

(** ** Conversations of [conversation_manager.py] *)

Module ConversationFacts.
Import Conversations.

Lemma conv_get_set k id c cs :
  conv_get k (conv_set id c cs) = if Nat.eqb k id then Some c else conv_get k cs.
Proof.
  induction cs as [|[id' c'] cs IH]; simpl.
  - destruct (Nat.eqb k id); reflexivity.
  - destruct (Nat.eqb_spec id id') as [->|Hne]; simpl.
    + destruct (Nat.eqb k id'); reflexivity.
    + rewrite IH. destruct (Nat.eqb_spec k id') as [->|]; [|reflexivity].
      rewrite (proj2 (Nat.eqb_neq id' id)) by congruence; reflexivity.
Qed.

Lemma add_message_known {D} (dbm : DBManager D) s id r c t cd :
  conv_get id (conversations s) = Some cd ->
  let s' := fst (add_message dbm s id r c t) in
  conv_get id (conversations s') =
    Some (mkConv (messages cd ++ [mkMessage r c t]) (title cd)) /\
  (forall k, k <> id -> conv_get k (conversations s') = conv_get k (conversations s)) /\
  db s' = option_map (fun d => db_add_message dbm d (next_uuid s) id (mkMessage r c t))
            (db s) /\
  next_uuid s' = S (next_uuid s).
Proof.
  intros H s'; subst s'; unfold add_message; rewrite H; cbn [fst conversations db next_uuid].
  rewrite conv_get_set, Nat.eqb_refl.
  split; [reflexivity|split; [|split; reflexivity]].
  intros k Hk; rewrite conv_get_set, (proj2 (Nat.eqb_neq k id) Hk); reflexivity.
Qed.

(** X11. A conversation made by [create_conversation] starts with no
    messages and the given title (["새 대화 "] followed by the time when the
    title is missing or empty); adding messages to it one by one with
    [add_message] makes its session entry hold exactly those messages in
    order and leaves every other conversation as it was. With a database
    manager, the database receives [add_conversation] for it and then one
    [add_message] per message, in order, whether or not these writes
    succeed; [get_conversation_messages] then returns what the database
    read returns, and the session's messages when the read raises or there
    is no database manager. *)
Theorem conversation_roundtrip {D} (dbm : DBManager D) s username title now msgs :
  let '(s1, id) := create_conversation dbm s username title now in
  let s2 := fold_left (fun s m => fst (add_message dbm s id (role m) (content m)
                                         (timestamp m)))
              msgs s1 in
  session_messages s2 id = msgs /\
  option_map Conversations.title (conv_get id (conversations s2)) =
    Some (conversation_title title now) /\
  (forall k, k <> id -> conv_get k (conversations s2) = conv_get k (conversations s)) /\
  db s2 = option_map (fun d => message_writes dbm id (S id) msgs
            (db_add_conversation dbm d id username (conversation_title title now) now))
            (db s) /\
  get_conversation_messages dbm s2 id =
    match db s2 with
    | Some d => match db_get_conversation_messages dbm d id with
                | Some l => l
                | None => msgs
                end
    | None => msgs
    end.
Proof.
  unfold create_conversation.
  set (t := conversation_title title now).
  set (id := next_uuid s).
  assert (Hgen : forall ms pre (s0 : ConvState D),
    conv_get id (conversations s0) = Some (mkConv pre t) ->
    let s2 := fold_left (fun s m => fst (add_message dbm s id (role m) (content m)
                                      (timestamp m))) ms s0 in
    conv_get id (conversations s2) = Some (mkConv (pre ++ ms) t) /\
    (forall k, k <> id -> conv_get k (conversations s2) = conv_get k (conversations s0)) /\
    db s2 = option_map (message_writes dbm id (next_uuid s0) ms) (db s0)).
  { induction ms as [|m ms IH]; intros pre s0 H0; simpl.
    - rewrite app_nil_r; split; [exact H0|split; [auto|]].
      destruct (db s0); reflexivity.
    - destruct (add_message_known dbm s0 id (role m) (content m) (timestamp m) _ H0)
        as (H1 & H2 & H3 & H4).
      destruct m as [r c tm]; cbn [role content timestamp messages Conversations.title] in *.
      destruct (IH (pre ++ [mkMessage r c tm]) _ H1) as (G1 & G2 & G3).
      rewrite <- app_assoc in G1; split; [exact G1|split].
      + intros k Hk; rewrite G2, H2 by exact Hk; reflexivity.
      + rewrite G3, H3, H4; destruct (db s0); reflexivity. }
  destruct (Hgen msgs []
    (mkConvState (conv_set id (mkConv [] t) (conversations s))
       (option_map (fun d => db_add_conversation dbm d id username t now) (db s))
       (S id)))
    as (G1 & G2 & G3); [simpl; rewrite conv_get_set, Nat.eqb_refl; reflexivity|].
  assert (Hs : session_messages
     (fold_left (fun s m => fst (add_message dbm s id (role m) (content m)
                                  (timestamp m))) msgs
        (mkConvState (conv_set id (mkConv [] t) (conversations s))
           (option_map (fun d => db_add_conversation dbm d id username t now) (db s))
           (S id))) id = msgs) by (unfold session_messages; rewrite G1; reflexivity).
  split; [exact Hs|split; [rewrite G1; reflexivity|split; [|split]]].
  - intros k Hk; rewrite G2 by exact Hk; simpl.
    rewrite conv_get_set, (proj2 (Nat.eqb_neq k id) Hk); reflexivity.
  - rewrite G3; destruct (db s); reflexivity.
  - unfold get_conversation_messages; rewrite Hs; reflexivity.
Qed.


End ConversationFacts.

(** ** Uploads with no chunks *)

Module UploadFacts.
Import Registry IndexStore RegistryFacts IndexFacts.

Lemma in_repeat_false (l : list DocumentMetadata) k d :
  map is_active l = repeat false k -> In d l -> is_active d = false.
Proof.
  intros H Hd; apply (in_map is_active) in Hd; rewrite H in Hd.
  apply repeat_spec in Hd; exact Hd.
Qed.

(** X13. An upload whose file yields no chunks (an empty document) still
    registers a new active version of its family and deactivates the
    previous one, but saves nothing: after [n] uploads of a file, one more
    upload of it with no chunks returns [[]] without touching the disk,
    the family's versions are [1..n+1] with only the last one active, that
    row has zero chunks, and the index rebuilt by [load_vectorstores] holds
    no chunk of the family at all. *)
Theorem empty_upload_hides_family st fname cat texts n
  (Hfresh : uuids_fresh st) (Htag : index_tagged st)
  (Hfam : family st (effective_category cat) fname = []) :
  let s0 := upload_times st fname cat texts n in
  let st' := upload s0 fname cat [] in
  snd (process_documents s0 [mkUpload fname (Some [])] cat) = Returned [] /\
  (forall q, disk st' q = disk s0 q) /\
  map version (family st' (effective_category cat) fname) = seq 1 (S n) /\
  map is_active (family st' (effective_category cat) fname) = active_pattern (S n) /\
  (exists d, In d (registry st') /\ filename d = fname /\
     category d = effective_category cat /\ is_active d = true /\
     version d = S n /\ chunks d = 0) /\
  (forall ch, In ch (chunks_of (fst (load_vectorstores st'))) ->
     ~ (source_file ch = fname /\ chunk_category ch = effective_category cat)).
Proof.
  intros s0 st'.
  set (c := effective_category cat) in *.
  destruct Hfresh as (Hnd & Hlt & Hpath & Hdisk).
  destruct (upload_times_inv st fname cat texts n Hnd Hlt Hfam) as (N0 & L0 & V0 & A0).
  fold s0 in N0, L0, V0, A0.
  destruct (upload_step s0 fname cat [] n N0 L0 V0 A0) as (_ & _ & V1 & A1).
  fold st' in V1, A1.
  destruct (upload_times_invariants st fname cat texts n
              (conj Hnd (conj Hlt (conj Hpath Hdisk))) Htag) as [F0 T0].
  fold s0 in F0, T0.
  destruct (upload_invariants s0 fname cat [] F0 T0) as [_ T1].
  fold st' in T1.
  destruct (upload_new_row s0 fname cat []) as [pre Hreg].
  fold st' in Hreg.
  set (meta := mkDoc (fresh s0) fname c (max_active_version s0 c fname + 1)
                 (List.length (@nil string)) true (Some (S (fresh s0)))) in Hreg.
  assert (Hfm : family st' c fname =
    filter (fun d => String.eqb (filename d) fname && String.eqb (category d) c) pre
      ++ [meta]) by (apply family_meta; [exact Hreg|reflexivity|reflexivity]).
  destruct (family_decompose n (family st' c fname) V1 A1) as (pre' & dl & E & _ & Vdl & Apre & _).
  rewrite Hfm in E; apply app_inj_tail in E as [Epre <-].
  split; [apply upload_outcome|].
  split; [intro q; unfold st'; rewrite upload_disk; destruct (Nat.eqb q _); reflexivity|].
  split; [exact V1|split; [exact A1|split]].
  - exists meta; split; [rewrite Hreg; apply in_or_app; right; left; reflexivity|].
    repeat split; [exact Vdl].
  - intros ch Hch [Hsf Hcc].
    apply load_vectorstores_chunks in Hch as (d & p & cs & Hd & Hact & Hp & Hdk & Hin).
    destruct (T1 d p cs ch Hd Hp Hdk Hin) as (_ & Hf & Hc & _).
    assert (Hdf : In d (family st' c fname)).
    { unfold family; apply filter_In; split; [exact Hd|].
      rewrite <- Hf, <- Hc, Hsf, Hcc, !String.eqb_refl; reflexivity. }
    rewrite Hfm, Epre in Hdf; apply in_app_or in Hdf as [Hdf|[<-|[]]].
    + rewrite (in_repeat_false _ _ _ Apre Hdf) in Hact; discriminate.
    + cbn [vector_store_path meta] in Hp; injection Hp as <-.
      unfold st' in Hdk; rewrite upload_disk, Nat.eqb_refl in Hdk.
      destruct F0 as (_ & _ & _ & D0).
      rewrite D0 in Hdk by lia; discriminate.
Qed.

Lemma empty_upload_hides_family_witness :
  (uuids_fresh empty_store /\ index_tagged empty_store /\
   family empty_store (effective_category (Some "HR")) "policy.pdf" = []) /\
  map is_active (family (upload (upload_times empty_store "policy.pdf" (Some "HR") ["v1"] 1)
                          "policy.pdf" (Some "HR") []) "HR" "policy.pdf") = [false; true] /\
  (forall ch, In ch (chunks_of (fst (load_vectorstores
      (upload (upload_times empty_store "policy.pdf" (Some "HR") ["v1"] 1)
         "policy.pdf" (Some "HR") [])))) ->
     ~ (source_file ch = "policy.pdf" /\
        chunk_category ch = effective_category (Some "HR"))).
Proof.
  assert (H1 : uuids_fresh empty_store).
  { unfold uuids_fresh; simpl; split; [constructor|split; [constructor|split]].
    - intros d p [].
    - intros; reflexivity. }
  assert (H2 : index_tagged empty_store) by (intros d p cs ch []).
  assert (H3 : family empty_store (effective_category (Some "HR")) "policy.pdf" = [])
    by reflexivity.
  split; [auto|].
  destruct (empty_upload_hides_family empty_store "policy.pdf" (Some "HR")
              ["v1"] 1 H1 H2 H3) as (_ & _ & _ & A & _ & C).
  split; [exact A|exact C].
Defined.

End UploadFacts.

(** ** Several files in one call *)

Module BatchFacts.
Import Registry IndexStore RegistryFacts IndexFacts.

Lemma process_file_indep c s s' docs info docs2 info2 f :
  registry s = registry s' -> fresh s = fresh s' ->
  version_logs s = version_logs s' ->
  let t := fst (fst (process_file c (s, docs, info) f)) in
  let t' := fst (fst (process_file c (s', docs2, info2) f)) in
  registry t = registry t' /\ fresh t = fresh t' /\ version_logs t = version_logs t'.
Proof.
  destruct s as [r l fr dk], s' as [r' l' fr' dk']; simpl; intros <- <- <-.
  unfold process_file, existing_version_of, get_documents_by_category; simpl.
  destruct (fold_left _ _ (0, None)) as [ev eo].
  destruct (uf_chunks f) as [texts|]; simpl; [|auto].
  destruct eo as [old|]; [destruct (Nat.ltb 0 ev)|]; simpl; auto.
  unfold update_document_status; simpl.
  destruct (find_doc old _); simpl; auto.
Qed.

Lemma process_documents_fields st files cat :
  let t := fst (fst (fold_left (process_file (effective_category cat)) files
                       (st, [], []))) in
  registry (fst (process_documents st files cat)) = registry t /\
  fresh (fst (process_documents st files cat)) = fresh t /\
  version_logs (fst (process_documents st files cat)) = version_logs t.
Proof.
  pose proof (process_documents_with_fields vectorstore_utils_save st files cat) as H.
  intro t; subst t; unfold process_documents.
  destruct (fold_left _ files (st, [], [])) as [[st1 docs] info]; exact H.
Qed.

(** X14. Uploading several files in one call of [process_documents]
    leaves the same registry, uuid counter and version log as uploading
    them one per call in the same order: each file is registered inside
    the loop, against the registry left by the files before it. *)
Theorem process_documents_batch_sequential st files cat :
  let b := fst (process_documents st files cat) in
  let q := fold_left (fun s f => fst (process_documents s [f] cat)) files st in
  registry b = registry q /\ fresh b = fresh q /\ version_logs b = version_logs q.
Proof.
  intros b q; subst b q.
  destruct (process_documents_fields st files cat) as (E1 & E2 & E3).
  rewrite E1, E2, E3; clear E1 E2 E3.
  set (c := effective_category cat).
  assert (Hgen : forall s s' docs info,
    registry s = registry s' -> fresh s = fresh s' ->
    version_logs s = version_logs s' ->
    let t := fst (fst (fold_left (process_file c) files (s, docs, info))) in
    let t' := fold_left (fun s f => fst (process_documents s [f] cat)) files s' in
    registry t = registry t' /\ fresh t = fresh t' /\ version_logs t = version_logs t').
  { induction files as [|f fs IH]; intros s s' docs info H1 H2 H3;
      cbn [fold_left]; [auto|].
    destruct (process_file c (s, docs, info) f) as [[t d'] i'] eqn:E.
    apply IH.
    all: destruct (process_documents_fields s' [f] cat) as (F1 & F2 & F3);
      fold c in F1, F2, F3; simpl in F1, F2, F3.
    all: destruct (process_file_indep c s s' docs info [] [] f H1 H2 H3) as (G1 & G2 & G3);
      rewrite E in G1, G2, G3; simpl in G1, G2, G3; congruence. }
  apply Hgen; reflexivity.
Qed.












End BatchFacts.
